(** * Conway's Game of Life: the simulation engine of [src/GameOfLife.ts]

    A shallow embedding of the class [GameOfLife] and the proofs of its
    specification.

    Modelling conventions.
    - A JavaScript [number] that holds an integer (a row, a column, a
      dimension, a neighbour count) is a [Z]; the arithmetic of the engine
      ([+ 1], [<], [>=]) is exact on them.
    - [boolean[][]] is a [list (list bool)].  Allocation is assumed to
      succeed: the engine limits on the length of an array and on the size of
      the heap are not part of the model.
    - A method is a computation in the monad [M]: it receives the object
      ([this]) and either returns a value and the object it leaves, or stops
      with a [fault].  Nothing in the class catches an exception.
    - [Set<number>] is the list of its elements in insertion order, without
      repetition, which is what [Array.from] enumerates. *)

From Stdlib Require Import ZArith List Bool Lia String Ascii DecimalString.
From stdpp Require Import base tactics option list numbers.

Local Open Scope Z_scope.

(** ** Faults and outcomes *)

(** The two ways an array access can leave the boolean matrix.
    [TypeError]: a property is read or written through [undefined]
    ([a[row][col]] where [a[row]] does not exist), which throws.
    [Hole]: the row exists and the column does not; a read yields [undefined]
    and a write extends the row, so the value is no longer a rectangular
    matrix of booleans. *)
Inductive fault : Type :=
  | TypeError
  | Hole.

Inductive outcome (A : Type) : Type :=
  | Ok (a : A)
  | Fail (f : fault).

Arguments Ok {A} a.
Arguments Fail {A} f.

(** ** Sets of numbers *)

Module JSSet.

(** [s.has(x)] *)
Definition has (s : list Z) (x : Z) : bool := existsb (Z.eqb x) s.

(** [s.add(x)]: a new element goes last, a present one changes nothing. *)
Definition add (s : list Z) (x : Z) : list Z :=
  if has s x then s else s ++ [x].

(** [new Set(counts)] *)
Definition from_array (counts : list Z) : list Z := fold_left add counts [].

(** [Array.from(s)] *)
Definition to_array (s : list Z) : list Z := s.

End JSSet.

(** ** The object *)

Record GameOfLife : Type := mkGameOfLife {
  grid : list (list bool);
  rows : Z;
  cols : Z;
  birthRule : list Z;
  survivalRule : list Z
}.

Definition with_grid (this : GameOfLife) (g : list (list bool)) : GameOfLife :=
  mkGameOfLife g (rows this) (cols this) (birthRule this) (survivalRule this).

(** ** Methods as computations on the object *)

Definition M (A : Type) : Type := GameOfLife -> outcome (A * GameOfLife).

Definition ret {A} (a : A) : M A := fun this => Ok (a, this).

Definition bind {A B} (c : M A) (k : A -> M B) : M B :=
  fun this =>
    match c this with
    | Ok (a, this') => k a this'
    | Fail f => Fail f
    end.

Definition get_this : M GameOfLife := fun this => Ok (this, this).

Definition set_grid (g : list (list bool)) : M unit :=
  fun this => Ok (tt, with_grid this g).

Definition lift {A} (o : outcome A) : M A :=
  fun this => match o with Ok a => Ok (a, this) | Fail f => Fail f end.

Declare Scope gol_scope.
Delimit Scope gol_scope with gol.
Notation "x <- c ;; k" := (bind c (fun x => k))
  (at level 100, c at next level, right associativity) : gol_scope.
Notation "c ;;; k" := (bind c (fun _ => k))
  (at level 100, right associativity) : gol_scope.
Local Open Scope gol_scope.

(** [for (let i = start; ...; i++) body], run [n] times.  [s] is the value of
    the local variables the body updates. *)
Fixpoint for_range {S : Type} (n : nat) (i : Z) (body : Z -> S -> M S) (s : S)
  : M S :=
  match n with
  | O => ret s
  | Datatypes.S n' => s' <- body i s ;; for_range n' (i + 1) body s'
  end.

(** [for (let i = 0; i < bound; i++) body]: with an integer bound the body
    runs [max bound 0] times, for [i = 0, 1, ...]. *)
Definition for_upto {S : Type} (bound : Z) (body : Z -> S -> M S) (s : S)
  : M S :=
  for_range (Z.to_nat bound) 0 body s.

(** ** Arrays of arrays *)

(** [a[row][col]] *)
Definition arr_get (a : list (list bool)) (row col : Z) : outcome bool :=
  if row <? 0 then Fail TypeError
  else match a !! Z.to_nat row with
       | None => Fail TypeError
       | Some r =>
           if col <? 0 then Fail Hole
           else match r !! Z.to_nat col with
                | None => Fail Hole
                | Some b => Ok b
                end
       end.

(** [a[row][col] = v] *)
Definition arr_set (a : list (list bool)) (row col : Z) (v : bool)
  : outcome (list (list bool)) :=
  if row <? 0 then Fail TypeError
  else match a !! Z.to_nat row with
       | None => Fail TypeError
       | Some r =>
           if (col <? 0) || (Z.of_nat (length r) <=? col) then Fail Hole
           else Ok (<[Z.to_nat row := <[Z.to_nat col := v]> r]> a)
       end.

(** ** The class *)

(** [Array.from({ length: n }, () => x)]: a length below zero counts as
    zero. *)
Definition array_from_length {A} (n : Z) (x : A) : list A :=
  replicate (Z.to_nat n) x.

Definition createEmptyGrid (rows cols : Z) : list (list bool) :=
  array_from_length rows (array_from_length cols false).

Definition constructor (rows cols : Z) : GameOfLife :=
  mkGameOfLife (createEmptyGrid rows cols) rows cols
    (JSSet.from_array [3]) (JSSet.from_array [2; 3]).

Definition setBirthRule (counts : list Z) : M unit :=
  fun this =>
    Ok (tt, mkGameOfLife (grid this) (rows this) (cols this)
              (JSSet.from_array counts) (survivalRule this)).

Definition setSurvivalRule (counts : list Z) : M unit :=
  fun this =>
    Ok (tt, mkGameOfLife (grid this) (rows this) (cols this)
              (birthRule this) (JSSet.from_array counts)).

Definition getCell (row col : Z) : M bool :=
  this <- get_this ;;
  if (row <? 0) || (row >=? rows this) || (col <? 0) || (col >=? cols this)
  then ret false
  else lift (arr_get (grid this) row col).

Definition setCell (row col : Z) (alive : bool) : M unit :=
  this <- get_this ;;
  if (row >=? 0) && (row <? rows this) && (col >=? 0) && (col <? cols this)
  then g <- lift (arr_set (grid this) row col alive) ;; set_grid g
  else ret tt.

Definition toggleCell (row col : Z) : M unit :=
  this <- get_this ;;
  if (row >=? 0) && (row <? rows this) && (col >=? 0) && (col <? cols this)
  then b <- lift (arr_get (grid this) row col) ;;
       g <- lift (arr_set (grid this) row col (negb b)) ;;
       set_grid g
  else ret tt.

Definition countNeighbors (row col : Z) : M Z :=
  for_range 3 (-1) (fun dr count =>
    for_range 3 (-1) (fun dc count =>
      if (dr =? 0) && (dc =? 0) then ret count
      else
        let newRow := row + dr in
        let newCol := col + dc in
        alive <- getCell newRow newCol ;;
        if alive then ret (count + 1) else ret count)
      count)
    0.

Definition nextGeneration : M unit :=
  this <- get_this ;;
  let newGrid := createEmptyGrid (rows this) (cols this) in
  newGrid <-
    for_upto (rows this) (fun row newGrid =>
      for_upto (cols this) (fun col newGrid =>
        neighbors <- countNeighbors row col ;;
        this <- get_this ;;
        isAlive <- lift (arr_get (grid this) row col) ;;
        if isAlive
        then lift (arr_set newGrid row col
                     (JSSet.has (survivalRule this) neighbors))
        else lift (arr_set newGrid row col
                     (JSSet.has (birthRule this) neighbors)))
        newGrid)
      newGrid ;;
  set_grid newGrid.

Definition clear : M unit :=
  this <- get_this ;;
  set_grid (createEmptyGrid (rows this) (cols this)).

(** [randomize(probability)].  [below row col] is the outcome of the
    comparison [Math.random() < probability] at the one draw made for the cell
    [(row, col)]. *)
Definition randomize (below : Z -> Z -> bool) : M unit :=
  this <- get_this ;;
  for_upto (rows this) (fun row _ =>
    for_upto (cols this) (fun col _ =>
      this <- get_this ;;
      g <- lift (arr_set (grid this) row col (below row col)) ;;
      set_grid g)
      tt)
    tt.

(** The loops of [addGlider] and [addGliderGun] over a literal of numbers:
    [cells] is what is left of [pattern[row]] from index [col] on, [rest] what
    is left of [pattern] from index [row] on.  A number is truthy when it is
    not zero. *)
Fixpoint stamp_cells (cells : list Z) (startRow startCol row col : Z)
  : M unit :=
  match cells with
  | [] => ret tt
  | v :: cells' =>
      (if negb (v =? 0)
       then setCell (startRow + row) (startCol + col) true
       else ret tt) ;;;
      stamp_cells cells' startRow startCol row (col + 1)
  end.

Fixpoint stamp_rows (rest : list (list Z)) (startRow startCol row : Z)
  : M unit :=
  match rest with
  | [] => ret tt
  | cells :: rest' =>
      stamp_cells cells startRow startCol row 0 ;;;
      stamp_rows rest' startRow startCol (row + 1)
  end.

Definition glider : list (list Z) :=
  [ [0; 1; 0];
    [0; 0; 1];
    [1; 1; 1] ].

Definition addGlider (startRow startCol : Z) : M unit :=
  stamp_rows glider startRow startCol 0.

Definition gliderGun : list (list Z) :=
  [ [0;0;0;0;0;0;0;0;0;0;0;0;0;0;0;0;0;0;0;0;0;0;0;0;1;0;0;0;0;0;0;0;0;0;0;0];
    [0;0;0;0;0;0;0;0;0;0;0;0;0;0;0;0;0;0;0;0;0;0;1;0;1;0;0;0;0;0;0;0;0;0;0;0];
    [0;0;0;0;0;0;0;0;0;0;0;0;1;1;0;0;0;0;0;0;1;1;0;0;0;0;0;0;0;0;0;0;0;0;1;1];
    [0;0;0;0;0;0;0;0;0;0;0;1;0;0;0;1;0;0;0;0;1;1;0;0;0;0;0;0;0;0;0;0;0;0;1;1];
    [1;1;0;0;0;0;0;0;0;0;1;0;0;0;0;0;1;0;0;0;1;1;0;0;0;0;0;0;0;0;0;0;0;0;0;0];
    [1;1;0;0;0;0;0;0;0;0;1;0;0;0;1;0;1;1;0;0;0;0;1;0;1;0;0;0;0;0;0;0;0;0;0;0];
    [0;0;0;0;0;0;0;0;0;0;1;0;0;0;0;0;1;0;0;0;0;0;0;0;1;0;0;0;0;0;0;0;0;0;0;0];
    [0;0;0;0;0;0;0;0;0;0;0;1;0;0;0;1;0;0;0;0;0;0;0;0;0;0;0;0;0;0;0;0;0;0;0;0];
    [0;0;0;0;0;0;0;0;0;0;0;0;1;1;0;0;0;0;0;0;0;0;0;0;0;0;0;0;0;0;0;0;0;0;0;0] ].

Definition addGliderGun (startRow startCol : Z) : M unit :=
  stamp_rows gliderGun startRow startCol 0.

Definition getPopulation : M Z :=
  this <- get_this ;;
  for_upto (rows this) (fun row count =>
    for_upto (cols this) (fun col count =>
      this <- get_this ;;
      b <- lift (arr_get (grid this) row col) ;;
      if b then ret (count + 1) else ret count)
      count)
    0.

Definition getDimensions : M (Z * Z) :=
  this <- get_this ;; ret (rows this, cols this).

Definition getGrid : M (list (list bool)) :=
  this <- get_this ;; ret (map (fun row => row) (grid this)).

(** ** The default order of [Array.prototype.sort] *)

(** [String(x)] for an integer [x]: its decimal digits, after a minus sign
    when it is negative (the notation of every integer below 10^21 in
    absolute value). *)
Definition Number_toString (x : Z) : string :=
  NilZero.string_of_int (Z.to_int x).

(** The comparison [sort] uses when it is given none: the two elements are
    turned into strings and the strings are compared code unit by code
    unit. *)
Definition SortCompare (x y : Z) : Z :=
  let xString := Number_toString x in
  let yString := Number_toString y in
  if String.ltb xString yString then -1
  else if String.ltb yString xString then 1
  else 0.

(** [sort] is stable, and [SortCompare] is a total preorder, so the sorted
    array is the one a stable insertion sort builds. *)
Fixpoint sort_insert (x : Z) (sorted : list Z) : list Z :=
  match sorted with
  | [] => [x]
  | y :: sorted' =>
      if SortCompare x y <=? 0 then x :: y :: sorted'
      else y :: sort_insert x sorted'
  end.

Definition Array_sort (a : list Z) : list Z := fold_right sort_insert [] a.

Definition getBirthRule : M (list Z) :=
  this <- get_this ;; ret (Array_sort (JSSet.to_array (birthRule this))).

Definition getSurvivalRule : M (list Z) :=
  this <- get_this ;; ret (Array_sort (JSSet.to_array (survivalRule this))).

(** [n] calls of a method, one after the other. *)
Fixpoint times (n : nat) (c : M unit) : M unit :=
  match n with
  | O => ret tt
  | Datatypes.S n' => c ;;; times n' c
  end.

(** ** The vocabulary of the specification *)

(** An array of [nr] rows of [nc] cells each. *)
Definition shaped (a : list (list bool)) (nr nc : nat) : Prop :=
  length a = nr /\ Forall (fun r => length r = nc) a.

(** The invariant of the class: the grid has the dimensions the object
    records.  The constructor establishes it and every method keeps it
    (lemmas [constructor_wf] and [*_wf] below), so it holds of every object a
    caller can hold. *)
Definition wf (this : GameOfLife) : Prop :=
  shaped (grid this) (Z.to_nat (rows this)) (Z.to_nat (cols this)).

(** [row ∈ [0, rows)] and [col ∈ [0, cols)]. *)
Definition in_bounds (this : GameOfLife) (row col : Z) : Prop :=
  0 <= row < rows this /\ 0 <= col < cols this.

Definition in_boundsb (this : GameOfLife) (row col : Z) : bool :=
  (0 <=? row) && (row <? rows this) && (0 <=? col) && (col <? cols this).

(** What [getCell] reports for a cell. *)
Definition alive (this : GameOfLife) (row col : Z) : bool :=
  match getCell row col this with
  | Ok (b, _) => b
  | Fail _ => false
  end.

(** The Moore neighbourhood: the offsets [(dr, dc) ∈ {-1,0,1}² \ {(0,0)}]. *)
Definition moore_offsets : list (Z * Z) :=
  List.filter (fun d => negb ((fst d =? 0) && (snd d =? 0)))
         (list_prod [-1; 0; 1] [-1; 0; 1]).

(** The number of the eight surrounding positions at which [f] holds. *)
Definition moore_count (f : Z -> Z -> bool) (row col : Z) : Z :=
  Z.of_nat
    (length (List.filter (fun d => f (row + fst d) (col + snd d))
                         moore_offsets)).

(** The rule of the automaton for one cell: a live cell stays alive when its
    count is in [survival], a dead one is born when its count is in
    [birth]. *)
Definition next_state (birth survival : list Z) (isAlive : bool) (n : Z)
  : bool :=
  if isAlive then JSSet.has survival n else JSSet.has birth n.

(** The rules and the dimensions of two objects are the same. *)
Definition same_config (this this' : GameOfLife) : Prop :=
  rows this' = rows this /\ cols this' = cols this /\
  birthRule this' = birthRule this /\ survivalRule this' = survivalRule this.

(** A template laid with its top-left corner at [(startRow, startCol)] has an
    alive entry over the cell [(row, col)]: first within one row of the
    template, then for the whole template. *)
Definition covers_cells (cells : list Z) (startCol col : Z) : bool :=
  if col <? startCol then false
  else match cells !! Z.to_nat (col - startCol) with
       | None => false
       | Some v => negb (v =? 0)
       end.

Definition covers (pattern : list (list Z)) (startRow startCol row col : Z)
  : bool :=
  if row <? startRow then false
  else match pattern !! Z.to_nat (row - startRow) with
       | None => false
       | Some cells => covers_cells cells startCol col
       end.

(** The number of [true] in a matrix. *)
Definition count_true (a : list (list bool)) : Z :=
  Z.of_nat (length (List.filter (fun b : bool => b) (concat a))).

(** Two rule sets with the same elements. *)
Definition same_rule (s1 s2 : list Z) : Prop :=
  forall n, JSSet.has s1 n = JSSet.has s2 n.

(** The first element of [l], when there is one, is above [b]. *)
Definition above_head (b : Z) (l : list Z) : Prop :=
  match l with
  | [] => True
  | y :: _ => b < y
  end.

(** In numerically ascending order, each element below the next. *)
Fixpoint ascending (l : list Z) : Prop :=
  match l with
  | [] => True
  | x :: l' => above_head x l' /\ ascending l'
  end.

(** [result] is the distinct elements of [counts] in numerically ascending
    order. *)
Definition ascending_distinct_of (counts result : list Z) : Prop :=
  ascending result /\ forall x, In x result <-> In x counts.

(** ** Sequences of calls *)

(** A call of a public method by a client of the class. *)
Inductive call : Type :=
  | CallSetBirthRule (counts : list Z)
  | CallSetSurvivalRule (counts : list Z)
  | CallGetBirthRule
  | CallGetSurvivalRule
  | CallGetCell (row col : Z)
  | CallSetCell (row col : Z) (alive : bool)
  | CallToggleCell (row col : Z)
  | CallNextGeneration
  | CallClear
  | CallRandomize (below : Z -> Z -> bool)
  | CallAddGlider (startRow startCol : Z)
  | CallAddGliderGun (startRow startCol : Z)
  | CallGetPopulation
  | CallGetDimensions
  | CallGetGrid.

(** The call, with the value it returns dropped. *)
Definition run_call (c : call) : M unit :=
  match c with
  | CallSetBirthRule counts => setBirthRule counts
  | CallSetSurvivalRule counts => setSurvivalRule counts
  | CallGetBirthRule => getBirthRule ;;; ret tt
  | CallGetSurvivalRule => getSurvivalRule ;;; ret tt
  | CallGetCell row col => getCell row col ;;; ret tt
  | CallSetCell row col alive => setCell row col alive
  | CallToggleCell row col => toggleCell row col
  | CallNextGeneration => nextGeneration
  | CallClear => clear
  | CallRandomize below => randomize below
  | CallAddGlider startRow startCol => addGlider startRow startCol
  | CallAddGliderGun startRow startCol => addGliderGun startRow startCol
  | CallGetPopulation => getPopulation ;;; ret tt
  | CallGetDimensions => getDimensions ;;; ret tt
  | CallGetGrid => getGrid ;;; ret tt
  end.

Fixpoint run_calls (cs : list call) : M unit :=
  match cs with
  | [] => ret tt
  | c :: cs' => run_call c ;;; run_calls cs'
  end.

(** ** Finite sets of live cells *)

(** The cell [(row, col)] is one of the cells listed in [cells]. *)
Definition live_at (cells : list (Z * Z)) (row col : Z) : bool :=
  existsb (fun p => (fst p =? row) && (snd p =? col)) cells.

(** All the listed cells have both coordinates in [[lo, hi]]. *)
Definition within (lo hi : Z) (cells : list (Z * Z)) : bool :=
  forallb (fun p => (lo <=? fst p) && (fst p <=? hi)
                    && (lo <=? snd p) && (snd p <=? hi)) cells.

(** On the square [[lo, hi]²], the rule turns the configuration [cells]
    into the configuration [cells']. *)
Definition evolves_on (birth survival : list Z) (lo hi : Z)
           (cells cells' : list (Z * Z)) : bool :=
  forallb (fun row =>
    forallb (fun col =>
      Bool.eqb
        (next_state birth survival (live_at cells row col)
           (moore_count (live_at cells) row col))
        (live_at cells' row col))
      (seqZ lo (hi - lo + 1)))
    (seqZ lo (hi - lo + 1)).

(** The four generations of the glider stamped at [(1, 1)]. *)
Definition glider_gen0 : list (Z * Z) := [(1,2); (2,3); (3,1); (3,2); (3,3)].
Definition glider_gen1 : list (Z * Z) := [(2,1); (2,3); (3,2); (3,3); (4,2)].
Definition glider_gen2 : list (Z * Z) := [(2,3); (3,1); (3,3); (4,2); (4,3)].
Definition glider_gen3 : list (Z * Z) := [(2,2); (3,3); (3,4); (4,2); (4,3)].
Definition glider_gen4 : list (Z * Z) := [(2,3); (3,4); (4,2); (4,3); (4,4)].

(** ** The controller: resizing the grid *)

(** In the methods of [GameController] the object of the monad is the engine
    the field [this.game] holds.  [this.game = game]: *)
Definition set_game (game : GameOfLife) : M unit := fun _ => Ok (tt, game).

(** [GameController.resizeGrid(rows, cols)], as far as the engine goes: the
    calls that follow the loops build a renderer and write two labels, and
    leave [this.game] alone. *)
Definition resizeGrid (rows cols : Z) : M unit :=
  oldGrid <- getGrid ;;
  set_game (constructor rows cols) ;;;
  for_upto (Z.min (Z.of_nat (length oldGrid)) rows) (fun row _ =>
    match oldGrid !! Z.to_nat row with
    | None => lift (Fail TypeError)
    | Some oldRow =>
        for_upto (Z.min (Z.of_nat (length oldRow)) cols) (fun col _ =>
          b <- lift (arr_get oldGrid row col) ;;
          if b then setCell row col true else ret tt)
          tt
    end)
    tt.

(** ** Further vocabulary *)



(** A configuration moved by [dr] rows and [dc] columns. *)
Definition shift (dr dc : Z) (cells : list (Z * Z)) : list (Z * Z) :=
  map (fun p => (fst p + dr, snd p + dc)) cells.

(** The live cells of [this] are the cells listed in [cells]: every listed
    cell is in the grid, and every cell of the grid is alive exactly when it
    is listed. *)
Definition shows (this : GameOfLife) (cells : list (Z * Z)) : bool :=
  forallb (fun p => in_boundsb this (fst p) (snd p)) cells
  && forallb (fun row =>
       forallb (fun col =>
         Bool.eqb (alive this row col) (live_at cells row col))
         (seqZ 0 (cols this)))
       (seqZ 0 (rows this)).



(** A block with its top-left cell at [(0, 0)], and the two phases of a
    blinker centred at [(0, 0)]. *)
Definition block_cells : list (Z * Z) := [(0,0); (0,1); (1,0); (1,1)].
Definition blinker_h : list (Z * Z) := [(0,-1); (0,0); (0,1)].
Definition blinker_v : list (Z * Z) := [(-1,0); (0,0); (1,0)].

(** * Proofs *)

(** ** Arrays of arrays *)

Section Arrays.

Variables (nr nc : nat).

Lemma shaped_row (a : list (list bool)) (i : nat) (r : list bool) :
  shaped a nr nc -> a !! i = Some r -> length r = nc.
Proof.
  intros [_ Hrows] Hi.
  rewrite Forall_forall in Hrows. apply Hrows.
  apply list_elem_of_In. apply list_elem_of_lookup. eauto.
Qed.

Lemma arr_get_ok (a : list (list bool)) (row col : Z) :
  shaped a nr nc ->
  0 <= row < Z.of_nat nr -> 0 <= col < Z.of_nat nc ->
  exists b, arr_get a row col = Ok b.
Proof.
  intros Ha Hrow Hcol. unfold arr_get.
  destruct (Z.ltb_spec row 0) as [?|_]; [lia|].
  destruct (a !! Z.to_nat row) as [r|] eqn:Er.
  - pose proof (shaped_row _ _ _ Ha Er) as Hlen.
    destruct (Z.ltb_spec col 0) as [?|_]; [lia|].
    destruct (r !! Z.to_nat col) as [b|] eqn:Eb; [eauto|].
    apply lookup_ge_None in Eb. lia.
  - apply lookup_ge_None in Er. destruct Ha as [Hlen _]. lia.
Qed.

Lemma arr_set_ok (a : list (list bool)) (row col : Z) (v : bool) :
  shaped a nr nc ->
  0 <= row < Z.of_nat nr -> 0 <= col < Z.of_nat nc ->
  exists a',
    arr_set a row col v = Ok a' /\ shaped a' nr nc /\
    arr_get a' row col = Ok v /\
    forall row' col',
      row' <> row \/ col' <> col -> arr_get a' row' col' = arr_get a row' col'.
Proof.
  intros Ha Hrow Hcol. unfold arr_set.
  destruct (Z.ltb_spec row 0) as [?|_]; [lia|].
  destruct (a !! Z.to_nat row) as [r|] eqn:Er.
  2:{ apply lookup_ge_None in Er. destruct Ha as [Hlen _]. lia. }
  pose proof (shaped_row _ _ _ Ha Er) as Hlen.
  destruct (Z.ltb_spec col 0) as [?|_]; [lia|].
  destruct (Z.leb_spec (Z.of_nat (length r)) col) as [?|_]; [lia|].
  simpl. eexists. split; [reflexivity|].
  assert (Hlt : (Z.to_nat row < length a)%nat)
    by (apply lookup_lt_is_Some; eauto).
  split; [|split].
  - destruct Ha as [Hla Hall]. split.
    + by rewrite length_insert.
    + apply Forall_insert; [done|]. by rewrite length_insert.
  - unfold arr_get.
    destruct (Z.ltb_spec row 0) as [?|_]; [lia|].
    rewrite list_lookup_insert_eq by done.
    destruct (Z.ltb_spec col 0) as [?|_]; [lia|].
    rewrite list_lookup_insert_eq by lia. done.
  - intros row' col' Hne. unfold arr_get.
    destruct (Z.ltb_spec row' 0) as [?|Hr']; [done|].
    destruct (decide (row' = row)) as [->|Hrr].
    + rewrite list_lookup_insert_eq by done. rewrite Er.
      destruct (Z.ltb_spec col' 0) as [?|Hc']; [done|].
      rewrite list_lookup_insert_ne by lia. done.
    + rewrite list_lookup_insert_ne by lia. done.
Qed.

(** A matrix is determined by what [arr_get] reads in it. *)
Lemma shaped_ext (a a' : list (list bool)) :
  shaped a nr nc -> shaped a' nr nc ->
  (forall row col,
      0 <= row < Z.of_nat nr -> 0 <= col < Z.of_nat nc ->
      arr_get a row col = arr_get a' row col) ->
  a = a'.
Proof.
  intros Ha Ha' Hget.
  apply list_eq_same_length with nr; [apply Ha' | apply Ha |].
  intros i r r' Hi Er Er'.
  pose proof (shaped_row _ _ _ Ha Er) as Hl.
  pose proof (shaped_row _ _ _ Ha' Er') as Hl'.
  apply list_eq_same_length with nc; [done | done |].
  intros j b b' Hj Eb Eb'.
  specialize (Hget (Z.of_nat i) (Z.of_nat j) ltac:(lia) ltac:(lia)).
  unfold arr_get in Hget.
  destruct (Z.ltb_spec (Z.of_nat i) 0) as [?|_]; [lia|].
  destruct (Z.ltb_spec (Z.of_nat j) 0) as [?|_]; [lia|].
  rewrite !Nat2Z.id in Hget. rewrite Er, Er' in Hget.
  rewrite Eb, Eb' in Hget. congruence.
Qed.

End Arrays.

Lemma createEmptyGrid_shaped (rows cols : Z) :
  shaped (createEmptyGrid rows cols) (Z.to_nat rows) (Z.to_nat cols).
Proof.
  unfold createEmptyGrid, array_from_length. split.
  - apply length_replicate.
  - apply Forall_replicate. apply length_replicate.
Qed.

Lemma createEmptyGrid_get (rows cols row col : Z) :
  0 <= row < rows -> 0 <= col < cols ->
  arr_get (createEmptyGrid rows cols) row col = Ok false.
Proof.
  intros Hrow Hcol. unfold arr_get, createEmptyGrid, array_from_length.
  destruct (Z.ltb_spec row 0) as [?|_]; [lia|].
  rewrite lookup_replicate_2 by lia.
  destruct (Z.ltb_spec col 0) as [?|_]; [lia|].
  rewrite lookup_replicate_2 by lia. done.
Qed.

(** ** Running a computation *)

Lemma bind_ok {A B} (c : M A) (k : A -> M B) this a this' :
  c this = Ok (a, this') -> bind c k this = k a this'.
Proof. intros H. unfold bind. by rewrite H. Qed.

Lemma bind_get {B} (k : GameOfLife -> M B) this :
  bind get_this k this = k this this.
Proof. reflexivity. Qed.

Lemma bind_ret {A B} (a : A) (k : A -> M B) this :
  bind (ret a) k this = k a this.
Proof. reflexivity. Qed.

Lemma bind_lift_ok {A B} (o : outcome A) (k : A -> M B) this a :
  o = Ok a -> bind (lift o) k this = k a this.
Proof. intros ->. reflexivity. Qed.

Lemma lift_ok {A} (o : outcome A) this a :
  o = Ok a -> lift o this = Ok (a, this).
Proof. intros ->. reflexivity. Qed.

(** The rule of a counted loop: an invariant [I k s this] of the local
    variables and the object after [k] rounds. *)
Lemma for_range_inv {S : Type} (I : nat -> S -> GameOfLife -> Prop)
      (n : nat) (start : Z) (body : Z -> S -> M S) (s : S) this :
  I O s this ->
  (forall k s this,
      (k < n)%nat -> I k s this ->
      exists s' this',
        body (start + Z.of_nat k) s this = Ok (s', this') /\
        I (Datatypes.S k) s' this') ->
  exists s' this', for_range n start body s this = Ok (s', this') /\ I n s' this'.
Proof.
  revert I start s this.
  induction n as [|n IH]; intros I start s this H0 Hstep.
  - exists s, this. split; [reflexivity | done].
  - destruct (Hstep O s this ltac:(lia) H0) as (s1 & this1 & Hb & H1).
    rewrite Z.add_0_r in Hb.
    destruct (IH (fun k => I (Datatypes.S k)) (start + 1) s1 this1 H1)
      as (s' & this' & Hrun & Hn).
    + intros k s2 this2 Hk Hk2.
      destruct (Hstep (Datatypes.S k) s2 this2 ltac:(lia) Hk2)
        as (s3 & this3 & Hb3 & H3).
      exists s3, this3. split; [|done].
      rewrite <- Hb3. f_equal. lia.
    + exists s', this'. split; [|done].
      simpl. by rewrite (bind_ok _ _ _ _ _ Hb).
Qed.

Lemma for_upto_inv {S : Type} (I : Z -> S -> GameOfLife -> Prop)
      (bound : Z) (body : Z -> S -> M S) (s : S) this :
  I 0 s this ->
  (forall i s this,
      0 <= i < bound -> I i s this ->
      exists s' this', body i s this = Ok (s', this') /\ I (i + 1) s' this') ->
  exists s' this',
    for_upto bound body s this = Ok (s', this') /\ I (Z.max bound 0) s' this'.
Proof.
  intros H0 Hstep. unfold for_upto.
  destruct (for_range_inv (fun k => I (Z.of_nat k)) (Z.to_nat bound) 0 body
              s this H0) as (s' & this' & Hrun & Hn).
  - intros k s1 this1 Hk Hk1.
    destruct (Hstep (Z.of_nat k) s1 this1 ltac:(lia) Hk1)
      as (s2 & this2 & Hb & H2).
    exists s2, this2. split; [done|].
    by replace (Z.of_nat (Datatypes.S k)) with (Z.of_nat k + 1) by lia.
  - exists s', this'. split; [done|].
    by replace (Z.max bound 0) with (Z.of_nat (Z.to_nat bound)) by lia.
Qed.

(** ** Reading and writing one cell *)

Lemma in_boundsb_iff this row col :
  in_boundsb this row col = true <-> in_bounds this row col.
Proof.
  unfold in_bounds, in_boundsb.
  destruct (Z.leb_spec 0 row), (Z.ltb_spec row (rows this)),
    (Z.leb_spec 0 col), (Z.ltb_spec col (cols this));
    simpl; split; intros; try done; lia.
Qed.

Lemma in_bounds_dec this row col :
  in_bounds this row col \/ ~ in_bounds this row col.
Proof. unfold in_bounds. lia. Qed.

Lemma getCell_outside this row col :
  ~ in_bounds this row col -> getCell row col this = Ok (false, this).
Proof.
  intros Hout. unfold getCell, in_bounds in *. rewrite bind_get.
  destruct (Z.ltb_spec row 0), (Z.geb_spec row (rows this)),
    (Z.ltb_spec col 0), (Z.geb_spec col (cols this));
    simpl; try reflexivity; lia.
Qed.

Lemma getCell_inside this row col :
  in_bounds this row col ->
  getCell row col this = lift (arr_get (grid this) row col) this.
Proof.
  intros [Hr Hc]. unfold getCell. rewrite bind_get.
  destruct (Z.ltb_spec row 0), (Z.geb_spec row (rows this)),
    (Z.ltb_spec col 0), (Z.geb_spec col (cols this));
    simpl; try reflexivity; lia.
Qed.

Lemma alive_outside this row col :
  ~ in_bounds this row col -> alive this row col = false.
Proof. intros H. unfold alive. by rewrite getCell_outside. Qed.

Lemma wf_get this row col :
  wf this -> in_bounds this row col ->
  exists b, arr_get (grid this) row col = Ok b.
Proof.
  intros Hwf [Hr Hc].
  apply (arr_get_ok _ _ _ _ _ Hwf); lia.
Qed.

Lemma alive_inside this row col :
  wf this -> in_bounds this row col ->
  arr_get (grid this) row col = Ok (alive this row col).
Proof.
  intros Hwf Hin. destruct (wf_get _ _ _ Hwf Hin) as [b Hb].
  unfold alive. rewrite getCell_inside by done.
  by rewrite (lift_ok _ _ _ Hb).
Qed.

Lemma getCell_wf this row col :
  wf this -> getCell row col this = Ok (alive this row col, this).
Proof.
  intros Hwf. destruct (in_bounds_dec this row col) as [Hin|Hout].
  - rewrite getCell_inside by done.
    apply lift_ok. by apply alive_inside.
  - rewrite alive_outside by done. by apply getCell_outside.
Qed.

(** An object is determined by its rules, its dimensions and what [getCell]
    reports. *)
Lemma state_ext this this' :
  wf this -> wf this' -> same_config this this' ->
  (forall row col, in_bounds this row col ->
                   alive this' row col = alive this row col) ->
  this' = this.
Proof.
  intros Hwf Hwf' (Hr & Hc & Hb & Hs) Hcells.
  assert (Hg : grid this' = grid this).
  { unfold wf in *. rewrite Hr, Hc in Hwf'.
    eapply shaped_ext; [exact Hwf' | exact Hwf |].
    intros row col Hrow Hcol.
    assert (Hin : in_bounds this row col) by (unfold in_bounds; lia).
    assert (Hin' : in_bounds this' row col)
      by (unfold in_bounds; rewrite Hr, Hc; apply Hin).
    rewrite (alive_inside this) by done.
    rewrite <- Hcells by done. apply alive_inside; [|done].
    unfold wf. by rewrite Hr, Hc. }
  destruct this, this'; simpl in *; congruence.
Qed.

(** The assignment [this.grid[row][col] = v] of an in-bounds cell. *)
Lemma grid_write this row col v :
  wf this -> in_bounds this row col ->
  exists g,
    arr_set (grid this) row col v = Ok g /\
    wf (with_grid this g) /\
    alive (with_grid this g) row col = v /\
    forall row' col',
      row' <> row \/ col' <> col ->
      alive (with_grid this g) row' col' = alive this row' col'.
Proof.
  intros Hwf Hin.
  destruct (arr_set_ok _ _ (grid this) row col v Hwf) as (g & Hset & Hsh & Hv & Ho);
    [destruct Hin; lia | destruct Hin; lia |].
  exists g. split; [done|].
  assert (Hwf' : wf (with_grid this g)) by exact Hsh.
  split; [done|]. split.
  - pose proof (alive_inside (with_grid this g) row col Hwf' Hin) as H.
    simpl in H. congruence.
  - intros row' col' Hne.
    destruct (in_bounds_dec this row' col') as [Hin'|Hout].
    + pose proof (alive_inside (with_grid this g) row' col' Hwf' Hin') as H.
      pose proof (alive_inside this row' col' Hwf Hin') as H'.
      simpl in H. rewrite Ho in H by done. congruence.
    + rewrite (alive_outside this) by done. by apply alive_outside.
Qed.

Lemma guard_inside this row col :
  in_bounds this row col ->
  (row >=? 0) && (row <? rows this) && (col >=? 0) && (col <? cols this) = true.
Proof.
  intros [Hr Hc].
  destruct (Z.geb_spec row 0), (Z.ltb_spec row (rows this)),
    (Z.geb_spec col 0), (Z.ltb_spec col (cols this)); simpl; try done; lia.
Qed.

Lemma guard_outside this row col :
  ~ in_bounds this row col ->
  (row >=? 0) && (row <? rows this) && (col >=? 0) && (col <? cols this) = false.
Proof.
  unfold in_bounds. intros Hout.
  destruct (Z.geb_spec row 0), (Z.ltb_spec row (rows this)),
    (Z.geb_spec col 0), (Z.ltb_spec col (cols this)); simpl; try done; lia.
Qed.

Lemma setCell_outside this row col v :
  ~ in_bounds this row col -> setCell row col v this = Ok (tt, this).
Proof.
  intros Hout. unfold setCell. rewrite bind_get.
  by rewrite guard_outside.
Qed.

Lemma toggleCell_outside this row col :
  ~ in_bounds this row col -> toggleCell row col this = Ok (tt, this).
Proof.
  intros Hout. unfold toggleCell. rewrite bind_get.
  by rewrite guard_outside.
Qed.

Lemma setCell_inside this row col v :
  wf this -> in_bounds this row col ->
  exists this',
    setCell row col v this = Ok (tt, this') /\
    wf this' /\ same_config this this' /\
    alive this' row col = v /\
    forall row' col',
      row' <> row \/ col' <> col -> alive this' row' col' = alive this row' col'.
Proof.
  intros Hwf Hin.
  destruct (grid_write this row col v Hwf Hin) as (g & Hset & Hwf' & Hv & Ho).
  exists (with_grid this g). split; [|done].
  unfold setCell. rewrite bind_get, guard_inside by done.
  by rewrite (bind_lift_ok _ _ _ _ Hset).
Qed.

Lemma toggleCell_inside this row col :
  wf this -> in_bounds this row col ->
  exists this',
    toggleCell row col this = Ok (tt, this') /\
    wf this' /\ same_config this this' /\
    alive this' row col = negb (alive this row col) /\
    forall row' col',
      row' <> row \/ col' <> col -> alive this' row' col' = alive this row' col'.
Proof.
  intros Hwf Hin.
  destruct (grid_write this row col (negb (alive this row col)) Hwf Hin)
    as (g & Hset & Hwf' & Hv & Ho).
  exists (with_grid this g). split; [|done].
  unfold toggleCell. rewrite bind_get, guard_inside by done.
  rewrite (bind_lift_ok _ _ _ _ (alive_inside _ _ _ Hwf Hin)).
  by rewrite (bind_lift_ok _ _ _ _ Hset).
Qed.

(** ** Counting neighbours *)

Lemma bind_assoc {A B C} (c : M A) (k : A -> M B) (k' : B -> M C) this :
  bind (bind c k) k' this = bind c (fun a => bind (k a) k') this.
Proof. unfold bind. destruct (c this) as [[a this']|f]; reflexivity. Qed.

Lemma bind_count {B} (b : bool) (count : Z) (k : Z -> M B) this :
  bind (if b then ret (count + 1) else ret count) k this
  = k (count + Z.b2z b) this.
Proof. destruct b; simpl; [reflexivity|]. by rewrite Z.add_0_r. Qed.

Lemma countNeighbors_wf this row col :
  wf this ->
  countNeighbors row col this = Ok (moore_count (alive this) row col, this).
Proof.
  intros Hwf. unfold countNeighbors.
  cbn [for_range].
  change (-1 + 1 + 1) with 1. change (-1 + 1) with 0.
  cbn [Z.eqb andb].
  repeat first
    [ rewrite bind_assoc
    | rewrite bind_ret
    | rewrite (bind_ok _ _ _ _ _ (getCell_wf _ _ _ Hwf))
    | rewrite bind_count ].
  unfold ret, moore_count, moore_offsets.
  cbn [list_prod List.filter app map fst snd Z.eqb andb negb length].
  do 2 f_equal.
  repeat match goal with
         | |- context [alive this ?r ?c] =>
             let b := fresh "b" in
             generalize (alive this r c); intros b
         end.
  destruct b, b0, b1, b2, b3, b4, b5, b6; reflexivity.
Qed.

(** ** One generation *)

(** The state the rules give the cell [(row, col)] of [this]. *)
Lemma nextGeneration_cell this newGrid row col :
  wf this -> in_bounds this row col ->
  shaped newGrid (Z.to_nat (rows this)) (Z.to_nat (cols this)) ->
  exists newGrid',
    (neighbors <- countNeighbors row col ;;
     this <- get_this ;;
     isAlive <- lift (arr_get (grid this) row col) ;;
     if isAlive
     then lift (arr_set newGrid row col
                  (JSSet.has (survivalRule this) neighbors))
     else lift (arr_set newGrid row col
                  (JSSet.has (birthRule this) neighbors))) this
    = Ok (newGrid', this) /\
    shaped newGrid' (Z.to_nat (rows this)) (Z.to_nat (cols this)) /\
    arr_get newGrid' row col
    = Ok (next_state (birthRule this) (survivalRule this)
            (alive this row col) (moore_count (alive this) row col)) /\
    forall row' col',
      row' <> row \/ col' <> col ->
      arr_get newGrid' row' col' = arr_get newGrid row' col'.
Proof.
  intros Hwf Hin Hsh.
  destruct (arr_set_ok _ _ newGrid row col
              (next_state (birthRule this) (survivalRule this)
                 (alive this row col) (moore_count (alive this) row col)) Hsh)
    as (newGrid' & Hset & Hsh' & Hv & Ho);
    [destruct Hin; lia | destruct Hin; lia |].
  exists newGrid'. split; [|done].
  rewrite (bind_ok _ _ _ _ _ (countNeighbors_wf _ row col Hwf)).
  rewrite bind_get.
  rewrite (bind_lift_ok _ _ _ _ (alive_inside _ _ _ Hwf Hin)).
  unfold next_state in Hset.
  destruct (alive this row col); by apply lift_ok.
Qed.

Lemma nextGeneration_wf this :
  wf this ->
  exists this',
    nextGeneration this = Ok (tt, this') /\
    wf this' /\ same_config this this' /\
    forall row col,
      in_bounds this row col ->
      alive this' row col
      = next_state (birthRule this) (survivalRule this)
          (alive this row col) (moore_count (alive this) row col).
Proof.
  intros Hwf.
  set (nxt := fun row col =>
         next_state (birthRule this) (survivalRule this)
           (alive this row col) (moore_count (alive this) row col)).
  set (nr := Z.to_nat (rows this)). set (nc := Z.to_nat (cols this)).
  unfold nextGeneration. rewrite bind_get.
  pose (I := fun (i : Z) (a : list (list bool)) (this1 : GameOfLife) =>
    this1 = this /\ shaped a nr nc /\
    forall row col, 0 <= row < i -> 0 <= col < cols this ->
                    arr_get a row col = Ok (nxt row col)).
  destruct (for_upto_inv I (rows this)
    (fun row newGrid =>
      for_upto (cols this) (fun col newGrid =>
        neighbors <- countNeighbors row col ;;
        this <- get_this ;;
        isAlive <- lift (arr_get (grid this) row col) ;;
        if isAlive
        then lift (arr_set newGrid row col
                     (JSSet.has (survivalRule this) neighbors))
        else lift (arr_set newGrid row col
                     (JSSet.has (birthRule this) neighbors)))
        newGrid)
    (createEmptyGrid (rows this) (cols this)) this)
    as (a & this1 & Hrun & -> & Hsh & Hcells).
  - split; [done|]. split; [apply createEmptyGrid_shaped|]. intros; lia.
  - intros i a0 this0 Hi (-> & Hsh0 & Hdone).
    pose (J := fun (j : Z) (a : list (list bool)) (this1 : GameOfLife) =>
      this1 = this /\ shaped a nr nc /\
      (forall row col, 0 <= row < i -> 0 <= col < cols this ->
                       arr_get a row col = Ok (nxt row col)) /\
      (forall col, 0 <= col < j -> arr_get a i col = Ok (nxt i col))).
    match goal with
    | |- exists s' this', for_upto ?b ?body ?s ?t = _ /\ _ =>
        destruct (for_upto_inv J b body s t)
          as (a1 & this1 & Hrun1 & -> & Hsh1 & Hrows1 & Hrow1)
    end.
    + split; [done|]. split; [done|]. split; [done|]. intros; lia.
    + intros j a1 this1 Hj (-> & Hsh1 & Hrows1 & Hrow1).
      destruct (nextGeneration_cell this a1 i j Hwf ltac:(split; lia) Hsh1)
        as (a2 & Hstep & Hsh2 & Hv & Ho).
      exists a2, this. split; [exact Hstep|].
      split; [done|]. split; [done|]. split.
      * intros row col Hrow Hcol. rewrite Ho by lia. by apply Hrows1.
      * intros col Hcol. destruct (decide (col = j)) as [->|Hne]; [done|].
        rewrite Ho by lia. apply Hrow1. lia.
    + exists a1, this. split; [done|]. split; [done|]. split; [done|].
      intros row col Hrow Hcol.
      destruct (decide (row = i)) as [->|Hne].
      * apply Hrow1. lia.
      * apply Hrows1; lia.
  - rewrite (bind_ok _ _ _ _ _ Hrun). unfold set_grid.
    eexists. split; [reflexivity|].
    assert (Hwf' : wf (with_grid this a)) by exact Hsh.
    split; [done|]. split; [done|].
    intros row col Hin.
    pose proof (alive_inside (with_grid this a) row col Hwf' Hin) as H.
    simpl in H. rewrite Hcells in H by (destruct Hin; lia).
    injection H as <-. reflexivity.
Qed.

(** ** Construction, [clear] and the population *)

Lemma constructor_wf (rows cols : Z) : wf (constructor rows cols).
Proof. apply createEmptyGrid_shaped. Qed.

Lemma alive_with_empty this row col :
  alive (with_grid this (createEmptyGrid (rows this) (cols this))) row col
  = false.
Proof.
  set (this' := with_grid this (createEmptyGrid (rows this) (cols this))).
  destruct (in_bounds_dec this' row col) as [Hin|Hout].
  - assert (Hwf : wf this') by apply createEmptyGrid_shaped.
    pose proof (alive_inside this' row col Hwf Hin) as H.
    simpl in H. rewrite createEmptyGrid_get in H by apply Hin.
    by injection H as <-.
  - by apply alive_outside.
Qed.

Lemma constructor_dead (rows cols row col : Z) :
  alive (constructor rows cols) row col = false.
Proof. apply (alive_with_empty (constructor rows cols)). Qed.

Lemma clear_wf this :
  exists this',
    clear this = Ok (tt, this') /\ wf this' /\ same_config this this' /\
    grid this' = createEmptyGrid (rows this) (cols this) /\
    forall row col, alive this' row col = false.
Proof.
  eexists. split; [reflexivity|].
  split; [apply createEmptyGrid_shaped|]. split; [done|]. split; [done|].
  intros. apply alive_with_empty.
Qed.

Lemma count_true_app (a b : list (list bool)) :
  count_true (a ++ b) = count_true a + count_true b.
Proof.
  unfold count_true. rewrite concat_app, List.filter_app, length_app. lia.
Qed.

Lemma count_true_row (r : list bool) :
  count_true [r] = Z.of_nat (length (List.filter (fun b : bool => b) r)).
Proof. unfold count_true. simpl. by rewrite app_nil_r. Qed.

Lemma filter_replicate_false (m : nat) :
  List.filter (fun b : bool => b) (replicate m false) = [].
Proof. induction m as [|m IH]; [reflexivity | exact IH]. Qed.

Lemma count_true_empty (rows cols : Z) :
  count_true (createEmptyGrid rows cols) = 0.
Proof.
  unfold createEmptyGrid, array_from_length.
  induction (Z.to_nat rows) as [|n IH]; [reflexivity|].
  change (replicate (Datatypes.S n) ?x) with ([x] ++ replicate n x).
  by rewrite count_true_app, IH, count_true_row, filter_replicate_false.
Qed.

Lemma getPopulation_wf this :
  wf this -> getPopulation this = Ok (count_true (grid this), this).
Proof.
  intros Hwf. unfold getPopulation. rewrite bind_get.
  pose (I := fun (i : Z) (count : Z) (this1 : GameOfLife) =>
    this1 = this /\ count = count_true (take (Z.to_nat i) (grid this))).
  match goal with
  | |- for_upto ?b ?body ?s ?t = _ =>
      destruct (for_upto_inv I b body s t) as (n & this1 & Hrun & -> & ->)
  end.
  - done.
  - intros i count this0 Hi (-> & ->).
    destruct (grid this !! Z.to_nat i) as [r|] eqn:Er.
    2:{ apply lookup_ge_None in Er. destruct Hwf as [Hlen _]. lia. }
    pose proof (shaped_row _ _ _ _ _ Hwf Er) as Hlen.
    pose (J := fun (j : Z) (count : Z) (this1 : GameOfLife) =>
      this1 = this /\
      count = count_true (take (Z.to_nat i) (grid this))
              + count_true [take (Z.to_nat j) r]).
    match goal with
    | |- exists s' this', for_upto ?b ?body ?s ?t = _ /\ _ =>
        destruct (for_upto_inv J b body s t) as (n & this1 & Hrun & -> & ->)
    end.
    + split; [done|]. rewrite count_true_row. simpl. lia.
    + intros j count this0 Hj (-> & ->).
      destruct (r !! Z.to_nat j) as [b|] eqn:Eb.
      2:{ apply lookup_ge_None in Eb. lia. }
      assert (Hget : arr_get (grid this) i j = Ok b).
      { unfold arr_get.
        destruct (Z.ltb_spec i 0) as [?|_]; [lia|]. rewrite Er.
        destruct (Z.ltb_spec j 0) as [?|_]; [lia|]. by rewrite Eb. }
      exists (count_true (take (Z.to_nat i) (grid this))
              + count_true [take (Z.to_nat j) r] + Z.b2z b), this.
      split.
      { rewrite bind_get, (bind_lift_ok _ _ _ _ Hget).
        destruct b; unfold ret; simpl; [done|]. by rewrite Z.add_0_r. }
      split; [done|].
      replace (Z.to_nat (j + 1)) with (Datatypes.S (Z.to_nat j)) by lia.
      rewrite (take_S_r _ _ _ Eb), !count_true_row.
      rewrite List.filter_app, length_app. destruct b; simpl; lia.
    + exists (count_true (take (Z.to_nat i) (grid this))
              + count_true [take (Z.to_nat (cols this `max` 0)) r]), this.
      split; [done|]. split; [done|].
      replace (Z.to_nat (i + 1)) with (Datatypes.S (Z.to_nat i)) by lia.
      rewrite (take_S_r _ _ _ Er), count_true_app.
      rewrite (take_ge r) by lia. done.
  - rewrite Hrun. do 2 f_equal.
    rewrite take_ge; [done|]. destruct Hwf as [Hlen _]. lia.
Qed.

(** ** Stamping a template *)

Lemma same_config_refl this : same_config this this.
Proof. by unfold same_config. Qed.

Lemma same_config_trans this1 this2 this3 :
  same_config this1 this2 -> same_config this2 this3 ->
  same_config this1 this3.
Proof. unfold same_config. intros (?&?&?&?) (?&?&?&?). repeat split; congruence. Qed.

Lemma same_config_bounds this this' row col :
  same_config this this' -> in_boundsb this' row col = in_boundsb this row col.
Proof. intros (Hr & Hc & _). unfold in_boundsb. by rewrite Hr, Hc. Qed.

(** [setCell] at any coordinate, in one statement. *)
Lemma setCell_wf this row col v :
  wf this ->
  exists this',
    setCell row col v this = Ok (tt, this') /\
    wf this' /\ same_config this this' /\
    forall row' col',
      alive this' row' col'
      = if in_boundsb this row' col' && (row' =? row) && (col' =? col)
        then v else alive this row' col'.
Proof.
  intros Hwf. destruct (in_bounds_dec this row col) as [Hin|Hout].
  - destruct (setCell_inside this row col v Hwf Hin)
      as (this' & Hrun & Hwf' & Hcfg & Hv & Ho).
    exists this'. split; [done|]. split; [done|]. split; [done|].
    intros row' col'.
    destruct (Z.eqb_spec row' row) as [->|Hr];
      [destruct (Z.eqb_spec col' col) as [->|Hc]|].
    + apply in_boundsb_iff in Hin. by rewrite Hin.
    + rewrite andb_false_r. apply Ho. by right.
    + rewrite andb_false_r. apply Ho. by left.
  - exists this. split; [by apply setCell_outside|]. split; [done|].
    split; [apply same_config_refl|].
    intros row' col'.
    destruct (Z.eqb_spec row' row) as [->|Hr];
      [destruct (Z.eqb_spec col' col) as [->|Hc]|];
      rewrite ?andb_false_r; try done.
    destruct (in_boundsb this row col) eqn:E; [|done].
    apply in_boundsb_iff in E. contradiction.
Qed.

Lemma covers_cells_cons (v : Z) (cells : list Z) (startCol col : Z) :
  covers_cells (v :: cells) startCol col
  = (col =? startCol) && negb (v =? 0) || covers_cells cells (startCol + 1) col.
Proof.
  unfold covers_cells.
  destruct (Z.ltb_spec col startCol), (Z.eqb_spec col startCol),
    (Z.ltb_spec col (startCol + 1)); try lia; simpl; try done.
  - subst. rewrite Z.sub_diag. simpl. by rewrite orb_false_r.
  - replace (Z.to_nat (col - startCol))
      with (Datatypes.S (Z.to_nat (col - (startCol + 1)))) by lia.
    done.
Qed.

Lemma covers_cons (cells : list Z) (rest : list (list Z))
      (startRow startCol row col : Z) :
  covers (cells :: rest) startRow startCol row col
  = (row =? startRow) && covers_cells cells startCol col
    || covers rest (startRow + 1) startCol row col.
Proof.
  unfold covers.
  destruct (Z.ltb_spec row startRow), (Z.eqb_spec row startRow),
    (Z.ltb_spec row (startRow + 1)); try lia; simpl; try done.
  - subst. rewrite Z.sub_diag. simpl. by rewrite orb_false_r.
  - replace (Z.to_nat (row - startRow))
      with (Datatypes.S (Z.to_nat (row - (startRow + 1)))) by lia.
    done.
Qed.

Lemma stamp_cells_wf (cells : list Z) (startRow startCol row : Z) :
  forall col this,
    wf this ->
    exists this',
      stamp_cells cells startRow startCol row col this = Ok (tt, this') /\
      wf this' /\ same_config this this' /\
      forall r c,
        alive this' r c
        = alive this r c
          || in_boundsb this r c && (r =? startRow + row)
             && covers_cells cells (startCol + col) c.
Proof.
  induction cells as [|v cells IH]; intros col this Hwf.
  - exists this. split; [reflexivity|]. split; [done|].
    split; [apply same_config_refl|].
    intros r c. unfold covers_cells.
    destruct (c <? startCol + col); rewrite ?lookup_nil, andb_false_r;
      by rewrite orb_false_r.
  - assert (Hfirst : exists this1,
      (if negb (v =? 0)
       then setCell (startRow + row) (startCol + col) true
       else ret tt) this = Ok (tt, this1) /\
      wf this1 /\ same_config this this1 /\
      forall r c,
        alive this1 r c
        = alive this r c
          || in_boundsb this r c && (r =? startRow + row)
             && ((c =? startCol + col) && negb (v =? 0))).
    { destruct (negb (v =? 0)).
      - destruct (setCell_wf this (startRow + row) (startCol + col) true Hwf)
          as (this1 & Hrun & Hwf1 & Hcfg1 & Hcells).
        exists this1. split; [done|]. split; [done|]. split; [done|].
        intros r c. rewrite Hcells, andb_true_r.
        destruct (in_boundsb this r c), (r =? startRow + row),
          (c =? startCol + col), (alive this r c); reflexivity.
      - exists this. split; [reflexivity|]. split; [done|].
        split; [apply same_config_refl|].
        intros r c. by rewrite !andb_false_r, orb_false_r. }
    destruct Hfirst as (this1 & Hrun1 & Hwf1 & Hcfg1 & Hcells1).
    destruct (IH (col + 1) this1 Hwf1) as (this2 & Hrun2 & Hwf2 & Hcfg2 & Hcells2).
    exists this2. split.
    { simpl. by rewrite (bind_ok _ _ _ _ _ Hrun1). }
    split; [done|]. split; [by eapply same_config_trans|].
    intros r c.
    rewrite Hcells2, Hcells1, covers_cells_cons,
      (same_config_bounds _ _ _ _ Hcfg1).
    replace (startCol + (col + 1)) with (startCol + col + 1) by lia.
    destruct (in_boundsb this r c), (r =? startRow + row),
      (c =? startCol + col), (alive this r c), (negb (v =? 0)),
      (covers_cells cells (startCol + col + 1) c); reflexivity.
Qed.

Lemma stamp_rows_wf (startRow startCol : Z) (rest : list (list Z)) :
  forall row this,
    wf this ->
    exists this',
      stamp_rows rest startRow startCol row this = Ok (tt, this') /\
      wf this' /\ same_config this this' /\
      forall r c,
        alive this' r c
        = alive this r c
          || in_boundsb this r c && covers rest (startRow + row) startCol r c.
Proof.
  induction rest as [|cells rest IH]; intros row this Hwf.
  - exists this. split; [reflexivity|]. split; [done|].
    split; [apply same_config_refl|].
    intros r c. unfold covers.
    destruct (r <? startRow + row); rewrite ?lookup_nil, andb_false_r;
      by rewrite orb_false_r.
  - destruct (stamp_cells_wf cells startRow startCol row 0 this Hwf)
      as (this1 & Hrun1 & Hwf1 & Hcfg1 & Hcells1).
    destruct (IH (row + 1) this1 Hwf1) as (this2 & Hrun2 & Hwf2 & Hcfg2 & Hcells2).
    exists this2. split.
    { simpl. by rewrite (bind_ok _ _ _ _ _ Hrun1). }
    split; [done|]. split; [by eapply same_config_trans|].
    intros r c.
    rewrite Hcells2, Hcells1, covers_cons, (same_config_bounds _ _ _ _ Hcfg1).
    rewrite Z.add_0_r.
    replace (startRow + (row + 1)) with (startRow + row + 1) by lia.
    destruct (in_boundsb this r c), (r =? startRow + row),
      (alive this r c), (covers_cells cells startCol c),
      (covers rest (startRow + row + 1) startCol r c); reflexivity.
Qed.

(** ** Evolution of a finite configuration *)

Lemma moore_count_ext (f g : Z -> Z -> bool) row col :
  (forall r c, f r c = g r c) -> moore_count f row col = moore_count g row col.
Proof.
  intros H. unfold moore_count. do 2 f_equal.
  apply List.filter_ext. intros d. apply H.
Qed.

Lemma moore_count_zero (f : Z -> Z -> bool) row col :
  (forall r c, row - 1 <= r <= row + 1 -> col - 1 <= c <= col + 1 ->
               f r c = false) ->
  moore_count f row col = 0.
Proof.
  intros H. unfold moore_count, moore_offsets.
  cbn [list_prod List.filter app map fst snd Z.eqb andb negb].
  rewrite !H by lia. reflexivity.
Qed.

Lemma live_at_within lo hi cells row col :
  within lo hi cells = true -> live_at cells row col = true ->
  lo <= row <= hi /\ lo <= col <= hi.
Proof.
  unfold within, live_at. rewrite forallb_forall, existsb_exists.
  intros Hall ([r c] & Hin & Heq). specialize (Hall _ Hin). simpl in *. lia.
Qed.

Lemma live_at_outside lo hi cells row col :
  within lo hi cells = true ->
  ~ (lo <= row <= hi /\ lo <= col <= hi) ->
  live_at cells row col = false.
Proof.
  intros Hw Hout. destruct (live_at cells row col) eqn:E; [|done].
  destruct Hout. by eapply live_at_within.
Qed.

Lemma evolves_on_cell birth survival lo hi cells cells' row col :
  evolves_on birth survival lo hi cells cells' = true ->
  lo <= row <= hi -> lo <= col <= hi ->
  next_state birth survival (live_at cells row col)
    (moore_count (live_at cells) row col)
  = live_at cells' row col.
Proof.
  unfold evolves_on. rewrite forallb_forall. intros Hall Hrow Hcol.
  assert (Hr : In row (seqZ lo (hi - lo + 1)))
    by (apply list_elem_of_In, elem_of_seqZ; lia).
  specialize (Hall row Hr). rewrite forallb_forall in Hall.
  assert (Hc : In col (seqZ lo (hi - lo + 1)))
    by (apply list_elem_of_In, elem_of_seqZ; lia).
  specialize (Hall col Hc). by apply Bool.eqb_prop in Hall.
Qed.

(** One generation of an object whose live cells are the finite
    configuration [cells], far enough from the border of the square
    [[lo, hi]²] for nothing to happen outside it. *)
Lemma nextGeneration_evolves this lo hi cells cells' :
  wf this ->
  (forall row col, alive this row col = live_at cells row col) ->
  JSSet.has (birthRule this) 0 = false ->
  within (lo + 1) (hi - 1) cells = true ->
  within lo hi cells' = true ->
  (forall row col, live_at cells' row col = true -> in_bounds this row col) ->
  evolves_on (birthRule this) (survivalRule this) lo hi cells cells' = true ->
  exists this',
    nextGeneration this = Ok (tt, this') /\
    wf this' /\ same_config this this' /\
    forall row col, alive this' row col = live_at cells' row col.
Proof.
  intros Hwf Hlive Hb0 Hin Hin' Hbounds Hev.
  destruct (nextGeneration_wf this Hwf) as (this' & Hrun & Hwf' & Hcfg & Hnext).
  exists this'. split; [done|]. split; [done|]. split; [done|].
  intros row col.
  destruct (in_bounds_dec this row col) as [Hib|Hob].
  - rewrite Hnext by done.
    rewrite (moore_count_ext _ _ _ _ Hlive), Hlive.
    assert (Hbox : (lo <= row <= hi /\ lo <= col <= hi)
                   \/ ~ (lo <= row <= hi /\ lo <= col <= hi)) by lia.
    destruct Hbox as [[Hr Hc]|Hout].
    + by apply evolves_on_cell with lo hi.
    + rewrite (live_at_outside lo hi cells') by done.
      rewrite (live_at_outside (lo + 1) (hi - 1) cells) by (done || lia).
      rewrite moore_count_zero; [exact Hb0|].
      intros r c Hr Hc.
      apply (live_at_outside (lo + 1) (hi - 1)); [done | lia].
  - rewrite alive_outside.
    + destruct (live_at cells' row col) eqn:E; [|done].
      destruct Hob. by apply Hbounds.
    + destruct Hcfg as (Hr & Hc & _). unfold in_bounds in *.
      by rewrite Hr, Hc.
Qed.

(** ** The invariant holds of every object a client can reach *)

Lemma toggleCell_wf this row col :
  wf this ->
  exists this',
    toggleCell row col this = Ok (tt, this') /\ wf this' /\
    same_config this this'.
Proof.
  intros Hwf. destruct (in_bounds_dec this row col) as [Hin|Hout].
  - destruct (toggleCell_inside this row col Hwf Hin)
      as (this' & Hrun & Hwf' & Hcfg & _).
    by exists this'.
  - exists this. split; [by apply toggleCell_outside|].
    split; [done | apply same_config_refl].
Qed.

Lemma randomize_wf this below :
  wf this ->
  exists this',
    randomize below this = Ok (tt, this') /\ wf this' /\
    same_config this this'.
Proof.
  intros Hwf. unfold randomize. rewrite bind_get.
  pose (I := fun (_ : Z) (_ : unit) (this1 : GameOfLife) =>
    wf this1 /\ same_config this this1).
  match goal with
  | |- exists this', for_upto ?b ?body ?s ?t = _ /\ _ =>
      destruct (for_upto_inv I b body s t) as ([] & this1 & Hrun & Hwf1 & Hcfg1)
  end.
  - split; [done | apply same_config_refl].
  - intros i [] this0 Hi [Hwf0 Hcfg0].
    match goal with
    | |- exists s' this', for_upto ?b ?body ?s ?t = _ /\ _ =>
        destruct (for_upto_inv I b body s t)
          as ([] & this1 & Hrun & Hwf1 & Hcfg1)
    end.
    + done.
    + intros j [] this1 Hj [Hwf1 Hcfg1].
      assert (Hin : in_bounds this1 i j).
      { destruct Hcfg1 as (Hr & Hc & _). unfold in_bounds.
        rewrite Hr, Hc. lia. }
      destruct (grid_write this1 i j (below i j) Hwf1 Hin)
        as (g & Hset & Hwf2 & _).
      exists tt, (with_grid this1 g). split.
      { by rewrite bind_get, (bind_lift_ok _ _ _ _ Hset). }
      split; [done|].
      eapply same_config_trans; [exact Hcfg1 | done].
    + by exists tt, this1.
  - by exists this1.
Qed.

Lemma run_call_wf (c : call) this :
  wf this ->
  exists this',
    run_call c this = Ok (tt, this') /\ wf this' /\
    rows this' = rows this /\ cols this' = cols this.
Proof.
  intros Hwf.
  destruct c as [counts|counts| | |row col|row col v|row col| | |below
                |startRow startCol|startRow startCol| | | ]; simpl.
  - eexists. split; [reflexivity|]. by split.
  - eexists. split; [reflexivity|]. by split.
  - eexists. split; [reflexivity|]. by split.
  - eexists. split; [reflexivity|]. by split.
  - exists this. rewrite (bind_ok _ _ _ _ _ (getCell_wf _ row col Hwf)).
    by split.
  - destruct (setCell_wf this row col v Hwf)
      as (this' & Hrun & Hwf' & (Hr & Hc & _) & _).
    by exists this'.
  - destruct (toggleCell_wf this row col Hwf)
      as (this' & Hrun & Hwf' & (Hr & Hc & _)).
    by exists this'.
  - destruct (nextGeneration_wf this Hwf)
      as (this' & Hrun & Hwf' & (Hr & Hc & _) & _).
    by exists this'.
  - destruct (clear_wf this) as (this' & Hrun & Hwf' & (Hr & Hc & _) & _).
    by exists this'.
  - destruct (randomize_wf this below Hwf)
      as (this' & Hrun & Hwf' & (Hr & Hc & _)).
    by exists this'.
  - destruct (stamp_rows_wf startRow startCol glider 0 this Hwf)
      as (this' & Hrun & Hwf' & (Hr & Hc & _) & _).
    by exists this'.
  - destruct (stamp_rows_wf startRow startCol gliderGun 0 this Hwf)
      as (this' & Hrun & Hwf' & (Hr & Hc & _) & _).
    by exists this'.
  - exists this. rewrite (bind_ok _ _ _ _ _ (getPopulation_wf _ Hwf)).
    by split.
  - exists this. by split.
  - exists this. by split.
Qed.

(** No sequence of calls on a new object stops with a fault, and the object
    it leaves satisfies the invariant, with the dimensions it was built
    with. *)
Lemma run_calls_wf (cs : list call) :
  forall this,
    wf this ->
    exists this',
      run_calls cs this = Ok (tt, this') /\ wf this' /\
      rows this' = rows this /\ cols this' = cols this.
Proof.
  induction cs as [|c cs IH]; intros this Hwf.
  - by exists this.
  - destruct (run_call_wf c this Hwf) as (this1 & Hrun1 & Hwf1 & Hr1 & Hc1).
    destruct (IH this1 Hwf1) as (this2 & Hrun2 & Hwf2 & Hr2 & Hc2).
    exists this2. split.
    { simpl. by rewrite (bind_ok _ _ _ _ _ Hrun1). }
    split; [done|]. split; congruence.
Qed.

Lemma reachable_wf (rows cols : Z) (cs : list call) :
  exists this,
    run_calls cs (constructor rows cols) = Ok (tt, this) /\ wf this.
Proof.
  destruct (run_calls_wf cs (constructor rows cols) (constructor_wf rows cols))
    as (this & Hrun & Hwf & _).
  by exists this.
Qed.

(** What the loops of the stamping methods do to [this] for a template
    [pattern] laid at [(startRow, startCol)]: union with the alive entries of
    the template that fall inside the grid. *)
Lemma stamp_union (pattern : list (list Z)) (startRow startCol : Z) this :
  wf this ->
  exists this',
    stamp_rows pattern startRow startCol 0 this = Ok (tt, this') /\
    wf this' /\ same_config this this' /\
    (forall row col, alive this row col = true -> alive this' row col = true) /\
    (forall row col,
        covers pattern startRow startCol row col = false ->
        alive this' row col = alive this row col) /\
    (forall row col,
        covers pattern startRow startCol row col = true ->
        in_bounds this row col -> alive this' row col = true) /\
    (forall row col,
        ~ in_bounds this row col -> alive this' row col = false).
Proof.
  intros Hwf.
  destruct (stamp_rows_wf startRow startCol pattern 0 this Hwf)
    as (this' & Hrun & Hwf' & Hcfg & Hcells).
  rewrite Z.add_0_r in Hcells.
  exists this'. repeat (split; [done|]).
  split; [|split; [|split]]; intros row col.
  - intros Ha. by rewrite Hcells, Ha.
  - intros Hc. by rewrite Hcells, Hc, andb_false_r, orb_false_r.
  - intros Hc Hin. apply in_boundsb_iff in Hin.
    by rewrite Hcells, Hc, Hin, orb_true_r.
  - intros Hout. rewrite Hcells, (alive_outside this) by done.
    destruct (in_boundsb this row col) eqn:E; [|done].
    apply in_boundsb_iff in E. contradiction.
Qed.

(** An object with a dimension that is not positive has an empty grid or a
    grid of empty rows: the grid the constructor builds. *)
Lemma degenerate_grid this :
  wf this -> rows this <= 0 \/ cols this <= 0 ->
  grid this = createEmptyGrid (rows this) (cols this).
Proof.
  intros Hwf Hdeg.
  eapply shaped_ext; [exact Hwf | apply createEmptyGrid_shaped |].
  intros row col Hrow Hcol. lia.
Qed.

Lemma stamp_degenerate (pattern : list (list Z)) (startRow startCol : Z) this :
  wf this -> (forall row col, ~ in_bounds this row col) ->
  stamp_rows pattern startRow startCol 0 this = Ok (tt, this).
Proof.
  intros Hwf Hdeg.
  destruct (stamp_rows_wf startRow startCol pattern 0 this Hwf)
    as (this' & Hrun & Hwf' & Hcfg & Hcells).
  rewrite Hrun. do 2 f_equal.
  apply state_ext; [done | done | done |].
  intros row col Hin. by destruct (Hdeg row col).
Qed.

(** Where the alive entries of the glider fall. *)
Lemma covers_glider (startRow startCol row col : Z) :
  covers glider startRow startCol row col
  = live_at [ (startRow, startCol + 1); (startRow + 1, startCol + 2);
              (startRow + 2, startCol); (startRow + 2, startCol + 1);
              (startRow + 2, startCol + 2) ] row col.
Proof.
  unfold covers, covers_cells, live_at, glider. cbn [existsb fst snd].
  destruct (Z.ltb_spec row startRow) as [Hr|Hr];
    [|destruct (Z.to_nat (row - startRow)) as [|[|[|k]]] eqn:Ek;
      cbn [lookup list_lookup];
      (destruct (Z.ltb_spec col startCol) as [Hc|Hc];
       [|destruct (Z.to_nat (col - startCol)) as [|[|[|j]]] eqn:Ej;
         cbn [lookup list_lookup Z.eqb negb]])];
    repeat match goal with
           | |- context [?a =? ?b] =>
               destruct (Z.eqb_spec a b); try lia; cbn [andb orb]
           end;
    reflexivity.
Qed.

Lemma live_at_translate (cells : list (Z * Z)) (dr dc row col : Z) :
  live_at (map (fun p => (fst p + dr, snd p + dc)) cells) row col
  = live_at cells (row - dr) (col - dc).
Proof.
  unfold live_at. induction cells as [|[r c] cells IH]; [reflexivity|].
  cbn [map existsb fst snd]. rewrite IH. f_equal.
  destruct (Z.eqb_spec (r + dr) row), (Z.eqb_spec r (row - dr)),
    (Z.eqb_spec (c + dc) col), (Z.eqb_spec c (col - dc)); simpl; lia || done.
Qed.

(** A grid of 4 rows is too small for the translated glider: its last row
    would be row 4. *)
Example glider_needs_five_rows :
  exists this0 this4,
    addGlider 1 1 (constructor 4 4) = Ok (tt, this0) /\
    times 4 nextGeneration this0 = Ok (tt, this4) /\
    alive this0 3 3 = true /\ alive this4 4 4 = false.
Proof.
  eexists _, _. split; [vm_compute; reflexivity|].
  split; [vm_compute; reflexivity|]. split; reflexivity.
Qed.

(** ** The rule sets *)

Lemma has_In (s : list Z) (x : Z) : JSSet.has s x = true <-> In x s.
Proof.
  unfold JSSet.has. rewrite existsb_exists. split.
  - intros (y & Hy & Heq). apply Z.eqb_eq in Heq. by subst.
  - intros Hx. exists x. split; [done | apply Z.eqb_refl].
Qed.

Lemma from_array_acc (counts : list Z) :
  forall acc,
    List.NoDup acc ->
    List.NoDup (fold_left JSSet.add counts acc) /\
    forall x, In x (fold_left JSSet.add counts acc) <-> In x acc \/ In x counts.
Proof.
  induction counts as [|c counts IH]; intros acc Hnd; simpl.
  - split; [done | tauto].
  - assert (Hadd : List.NoDup (JSSet.add acc c) /\
                   forall x, In x (JSSet.add acc c) <-> In x acc \/ x = c).
    { unfold JSSet.add. destruct (JSSet.has acc c) eqn:E.
      - apply has_In in E. split; [done|]. intros x. split; [tauto|].
        intros [?| ->]; done.
      - assert (Hc : ~ In c acc) by (rewrite <- has_In; congruence).
        split.
        + apply List.NoDup_app; [done | repeat constructor; by intros [] |].
          intros x Hx [<-|[]]. done.
        + intros x. rewrite in_app_iff. simpl. intuition. }
    destruct Hadd as [Hnd' Hmem].
    destruct (IH _ Hnd') as [Hnd'' Hmem'']. split; [done|].
    intros x. rewrite Hmem'', Hmem. intuition.
Qed.

Lemma from_array_spec (counts : list Z) :
  List.NoDup (JSSet.from_array counts) /\
  forall x, In x (JSSet.from_array counts) <-> In x counts.
Proof.
  destruct (from_array_acc counts [] (List.NoDup_nil Z)) as [Hnd Hmem].
  split; [done|]. intros x. rewrite Hmem. simpl. tauto.
Qed.

Lemma sort_insert_In (x y : Z) (s : list Z) :
  In y (sort_insert x s) <-> y = x \/ In y s.
Proof.
  induction s as [|z s IH]; simpl; [intuition|].
  destruct (SortCompare x z <=? 0); simpl; [intuition|].
  rewrite IH. intuition.
Qed.

Lemma Array_sort_In (y : Z) (a : list Z) : In y (Array_sort a) <-> In y a.
Proof.
  induction a as [|x a IH]; simpl; [tauto|].
  rewrite sort_insert_In, IH. intuition.
Qed.

(** On one-digit counts the order of the strings is the order of the
    numbers. *)
Lemma SortCompare_digit (x y : Z) :
  0 <= x <= 9 -> 0 <= y <= 9 -> (SortCompare x y <=? 0) = (x <=? y).
Proof.
  intros Hx Hy.
  assert (Ex : x = 0 \/ x = 1 \/ x = 2 \/ x = 3 \/ x = 4 \/ x = 5 \/ x = 6
               \/ x = 7 \/ x = 8 \/ x = 9) by lia.
  assert (Ey : y = 0 \/ y = 1 \/ y = 2 \/ y = 3 \/ y = 4 \/ y = 5 \/ y = 6
               \/ y = 7 \/ y = 8 \/ y = 9) by lia.
  clear Hx Hy.
  repeat (destruct Ex as [->|Ex]); try subst x;
    repeat (destruct Ey as [->|Ey]); try subst y; reflexivity.
Qed.

Lemma sort_insert_above (b x : Z) (s : list Z) :
  b < x -> above_head b s -> above_head b (sort_insert x s).
Proof.
  intros Hb Hs. destruct s as [|y s]; simpl; [done|].
  by destruct (SortCompare x y <=? 0).
Qed.

Lemma sort_insert_ascending (x : Z) (s : list Z) :
  0 <= x <= 9 -> Forall (fun y => 0 <= y <= 9) s ->
  ~ In x s -> ascending s -> ascending (sort_insert x s).
Proof.
  intros Hx. induction s as [|y s IH]; intros Hs Hnot Hasc.
  - simpl. done.
  - apply List.Forall_cons_iff in Hs as [Hy Hs]. destruct Hasc as [Hhead Hasc].
    simpl. rewrite SortCompare_digit by done.
    destruct (Z.leb_spec x y) as [Hle|Hgt].
    + split; [|by split]. simpl.
      assert (x <> y) by (intros ->; apply Hnot; by left). lia.
    + split.
      * apply sort_insert_above; [lia | done].
      * apply IH; [done | | done]. intros Hin. apply Hnot. by right.
Qed.

Lemma Array_sort_ascending (a : list Z) :
  Forall (fun y => 0 <= y <= 9) a -> List.NoDup a -> ascending (Array_sort a).
Proof.
  induction a as [|x a IH]; intros Ha Hnd; [done|].
  apply List.Forall_cons_iff in Ha as [Hx Ha].
  apply List.NoDup_cons_iff in Hnd as [Hnot Hnd].
  simpl. apply sort_insert_ascending; [done | | | by apply IH].
  - rewrite List.Forall_forall in *. intros y Hy.
    rewrite Array_sort_In in Hy. by apply Ha.
  - by rewrite Array_sort_In.
Qed.

(** For counts of one digit, which covers every count the eight neighbours of
    a cell can reach, the rule getters return the distinct counts in
    ascending order. *)
Lemma rule_getters_one_digit (counts : list Z) this :
  Forall (fun y => 0 <= y <= 9) counts ->
  (exists result this',
      (setBirthRule counts ;;; getBirthRule) this = Ok (result, this') /\
      ascending_distinct_of counts result) /\
  (exists result this',
      (setSurvivalRule counts ;;; getSurvivalRule) this = Ok (result, this') /\
      ascending_distinct_of counts result).
Proof.
  intros Hdigits.
  destruct (from_array_spec counts) as [Hnd Hmem].
  assert (Hres : ascending_distinct_of counts
                   (Array_sort (JSSet.from_array counts))).
  { split.
    - apply Array_sort_ascending; [|done].
      rewrite List.Forall_forall in *. intros y Hy. apply Hdigits.
      by apply Hmem.
    - intros x. by rewrite Array_sort_In, Hmem. }
  split; eexists _, _; (split; [reflexivity | exact Hres]).
Qed.

(** * The properties of the specification *)

(** A small object for the examples: a 3 x 3 grid with the three cells of the
    middle row alive (a blinker), under the default rules. *)
Lemma blinker_wf :
  wf (mkGameOfLife [ [false; false; false];
                     [true; true; true];
                     [false; false; false] ] 3 3 [3] [2; 3]).
Proof. split; [reflexivity | repeat constructor]. Defined.

(** C1. [nextGeneration] replaces the grid by a grid of the same dimensions in
    which every cell [(row, col)] is alive exactly when the count of its
    eight neighbours in the grid before the step (positions outside the grid
    counting as dead) is in the survival rule, for a cell that was alive, or
    in the birth rule, for a cell that was dead.  The new state of a cell is
    a function of the grid before the step only. *)
Theorem C1_nextGeneration_rule (this : GameOfLife) :
  wf this ->
  exists this',
    nextGeneration this = Ok (tt, this') /\
    rows this' = rows this /\ cols this' = cols this /\
    birthRule this' = birthRule this /\
    survivalRule this' = survivalRule this /\
    shaped (grid this') (Z.to_nat (rows this)) (Z.to_nat (cols this)) /\
    forall row col,
      in_bounds this row col ->
      getCell row col this'
      = Ok (if alive this row col
            then JSSet.has (survivalRule this)
                   (moore_count (alive this) row col)
            else JSSet.has (birthRule this)
                   (moore_count (alive this) row col),
            this').
Proof.
  intros Hwf.
  destruct (nextGeneration_wf this Hwf)
    as (this' & Hrun & Hwf' & (Hr & Hc & Hb & Hs) & Hnext).
  exists this'. repeat (split; [done|]). split.
  - unfold wf in Hwf'. by rewrite Hr, Hc in Hwf'.
  - intros row col Hin.
    rewrite (getCell_wf _ row col Hwf'), (Hnext row col Hin). reflexivity.
Qed.

Lemma C1_nextGeneration_rule_witness :
  exists this',
    nextGeneration
      (mkGameOfLife [ [false; false; false];
                      [true; true; true];
                      [false; false; false] ] 3 3 [3] [2; 3])
    = Ok (tt, this') /\
    getCell 0 1 this' = Ok (true, this') /\
    getCell 1 0 this' = Ok (false, this').
Proof.
  destruct (C1_nextGeneration_rule _ blinker_wf)
    as (this' & Hrun & _ & _ & _ & _ & _ & Hcell).
  exists this'. split; [exact Hrun|]. split.
  - rewrite (Hcell 0 1); [reflexivity | vm_compute; intuition discriminate].
  - rewrite (Hcell 1 0); [reflexivity | vm_compute; intuition discriminate].
Defined.

(** C2. At every coordinate outside the grid, [getCell] returns [false], does
    not fail, and leaves the object as it was. *)
Theorem C2_getCell_out_of_bounds (this : GameOfLife) (row col : Z) :
  row < 0 \/ row >= rows this \/ col < 0 \/ col >= cols this ->
  getCell row col this = Ok (false, this).
Proof.
  intros Hout. apply getCell_outside. unfold in_bounds. lia.
Qed.

Lemma C2_getCell_out_of_bounds_witness :
  getCell 3 (-1)
    (mkGameOfLife [ [true; true]; [true; true] ] 2 2 [3] [2; 3])
  = Ok (false, mkGameOfLife [ [true; true]; [true; true] ] 2 2 [3] [2; 3]).
Proof.
  apply C2_getCell_out_of_bounds. simpl. lia.
Defined.

(** C3, at the counts [2, 10]. [sort()] is called without a comparison
    function and orders the counts as strings: after [setBirthRule([2, 10])]
    the getter returns [10, 2], and the same for the survival rule.  The
    distinct counts in ascending order are [2, 10]. *)
Theorem C3_rule_getters_sort_as_strings (this : GameOfLife) :
  (setBirthRule [2; 10] ;;; getBirthRule) this
  = Ok ([10; 2],
        mkGameOfLife (grid this) (rows this) (cols this)
          [2; 10] (survivalRule this)) /\
  (setSurvivalRule [2; 10] ;;; getSurvivalRule) this
  = Ok ([10; 2],
        mkGameOfLife (grid this) (rows this) (cols this)
          (birthRule this) [2; 10]) /\
  ~ ascending_distinct_of [2; 10] [10; 2] /\
  ascending_distinct_of [2; 10] [2; 10].
Proof.
  split; [reflexivity|]. split; [reflexivity|]. split.
  - intros [[Hhead _] _]. simpl in Hhead. lia.
  - split; [simpl; lia | tauto].
Qed.

(** C4. At every coordinate outside the grid, [setCell] and [toggleCell] do
    not fail and leave the object as it was: every cell, the rules and the
    dimensions.  The population read afterwards is the population read
    before. *)
Theorem C4_write_out_of_bounds (this : GameOfLife) (row col : Z)
        (alive : bool) :
  row < 0 \/ row >= rows this \/ col < 0 \/ col >= cols this ->
  setCell row col alive this = Ok (tt, this) /\
  toggleCell row col this = Ok (tt, this) /\
  (setCell row col alive ;;; getPopulation) this = getPopulation this /\
  (toggleCell row col ;;; getPopulation) this = getPopulation this.
Proof.
  intros Hout.
  assert (Hnot : ~ in_bounds this row col) by (unfold in_bounds; lia).
  pose proof (setCell_outside this row col alive Hnot) as Hset.
  pose proof (toggleCell_outside this row col Hnot) as Htog.
  split; [done|]. split; [done|]. split.
  - by rewrite (bind_ok _ _ _ _ _ Hset).
  - by rewrite (bind_ok _ _ _ _ _ Htog).
Qed.

Lemma C4_write_out_of_bounds_witness :
  setCell 0 2 false
    (mkGameOfLife [ [true; true]; [true; true] ] 2 2 [3] [2; 3])
  = Ok (tt, mkGameOfLife [ [true; true]; [true; true] ] 2 2 [3] [2; 3]).
Proof.
  apply C4_write_out_of_bounds. simpl. lia.
Defined.

(** C5. [addGlider] and [addGliderGun], at every offset: a cell that was
    alive stays alive; a cell under no alive entry of the template keeps its
    state; a cell of the grid under an alive entry becomes alive; what falls
    outside the grid is dropped: the call does not fail, the dimensions and
    the rules are unchanged and no cell outside the grid is alive. *)
Theorem C5_stamping_is_union (this : GameOfLife) (startRow startCol : Z) :
  wf this ->
  (exists this',
      addGlider startRow startCol this = Ok (tt, this') /\
      wf this' /\ same_config this this' /\
      (forall row col,
          alive this row col = true -> alive this' row col = true) /\
      (forall row col,
          covers glider startRow startCol row col = false ->
          alive this' row col = alive this row col) /\
      (forall row col,
          covers glider startRow startCol row col = true ->
          in_bounds this row col -> alive this' row col = true) /\
      (forall row col,
          ~ in_bounds this row col -> alive this' row col = false)) /\
  (exists this',
      addGliderGun startRow startCol this = Ok (tt, this') /\
      wf this' /\ same_config this this' /\
      (forall row col,
          alive this row col = true -> alive this' row col = true) /\
      (forall row col,
          covers gliderGun startRow startCol row col = false ->
          alive this' row col = alive this row col) /\
      (forall row col,
          covers gliderGun startRow startCol row col = true ->
          in_bounds this row col -> alive this' row col = true) /\
      (forall row col,
          ~ in_bounds this row col -> alive this' row col = false)).
Proof.
  intros Hwf. split; by apply stamp_union.
Qed.

Lemma C5_stamping_is_union_witness :
  exists this',
    addGlider 1 1
      (mkGameOfLife [ [false; false; false];
                      [true; true; true];
                      [false; false; false] ] 3 3 [3] [2; 3])
    = Ok (tt, this') /\
    alive this' 1 0 = true /\ alive this' 1 2 = true /\
    alive this' 0 0 = false.
Proof.
  destruct (C5_stamping_is_union _ 1 1 blinker_wf)
    as [(this' & Hrun & _ & _ & Hkeep & Hfree & Hset & _) _].
  exists this'. split; [exact Hrun|]. split; [|split].
  - apply Hkeep. reflexivity.
  - apply Hset; [reflexivity | vm_compute; intuition discriminate].
  - rewrite Hfree; reflexivity.
Defined.

(** C6. Under the default rules, on an empty grid of at least 5 rows and 5
    columns, [addGlider(1, 1)] followed by four calls of [nextGeneration]
    leaves alive exactly the cells of the stamped glider moved one row down
    and one column right. *)
Theorem C6_glider_translation (nrows ncols : Z) :
  5 <= nrows -> 5 <= ncols ->
  exists this0 this4,
    addGlider 1 1 (constructor nrows ncols) = Ok (tt, this0) /\
    times 4 nextGeneration this0 = Ok (tt, this4) /\
    (forall row col, alive this0 row col = covers glider 1 1 row col) /\
    (forall row col, alive this4 row col = alive this0 (row - 1) (col - 1)).
Proof.
  intros Hrows Hcols.
  pose proof (constructor_wf nrows ncols) as Hwf.
  destruct (stamp_rows_wf 1 1 glider 0 _ Hwf)
    as (this0 & Hrun0 & Hwf0 & Hcfg0 & Hcells0).
  assert (Hsmall : forall this cells,
             same_config (constructor nrows ncols) this ->
             within 0 4 cells = true ->
             forall row col, live_at cells row col = true ->
                             in_bounds this row col).
  { intros this cells (Hr & Hc & _) Hw row col Hl.
    destruct (live_at_within _ _ _ _ _ Hw Hl).
    unfold in_bounds. rewrite Hr, Hc. simpl. lia. }
  assert (Hlive0 : forall row col, alive this0 row col = live_at glider_gen0 row col).
  { intros row col. rewrite Hcells0, constructor_dead, covers_glider.
    change (live_at _ row col) with (live_at glider_gen0 row col).
    destruct (live_at glider_gen0 row col) eqn:E; [|by rewrite andb_false_r].
    apply (Hsmall (constructor nrows ncols) glider_gen0
             (same_config_refl _) eq_refl) in E.
    apply in_boundsb_iff in E. by rewrite E. }
  assert (Hstep : forall this cells cells',
             wf this -> same_config (constructor nrows ncols) this ->
             (forall row col, alive this row col = live_at cells row col) ->
             within 1 4 cells = true -> within 0 4 cells' = true ->
             evolves_on [3] [2; 3] 0 5 cells cells' = true ->
             exists this',
               nextGeneration this = Ok (tt, this') /\ wf this' /\
               same_config (constructor nrows ncols) this' /\
               forall row col, alive this' row col = live_at cells' row col).
  { intros this cells cells' Hw Hcfg Hl Hin Hin' Hev.
    destruct (nextGeneration_evolves this 0 5 cells cells' Hw Hl)
      as (this' & Hrun & Hw' & Hcfg' & Hl').
    - destruct Hcfg as (_ & _ & -> & _). reflexivity.
    - exact Hin.
    - revert Hin'. unfold within. rewrite !forallb_forall.
      intros H p Hp. specialize (H p Hp). lia.
    - by apply Hsmall.
    - destruct Hcfg as (_ & _ & -> & ->). exact Hev.
    - exists this'. split; [done|]. split; [done|].
      split; [by eapply same_config_trans|done]. }
  destruct (Hstep this0 glider_gen0 glider_gen1 Hwf0 Hcfg0 Hlive0)
    as (this1 & Hrun1 & Hwf1 & Hcfg1 & Hlive1); [reflexivity..|].
  destruct (Hstep this1 glider_gen1 glider_gen2 Hwf1 Hcfg1 Hlive1)
    as (this2 & Hrun2 & Hwf2 & Hcfg2 & Hlive2); [reflexivity..|].
  destruct (Hstep this2 glider_gen2 glider_gen3 Hwf2 Hcfg2 Hlive2)
    as (this3 & Hrun3 & Hwf3 & Hcfg3 & Hlive3); [reflexivity..|].
  destruct (Hstep this3 glider_gen3 glider_gen4 Hwf3 Hcfg3 Hlive3)
    as (this4 & Hrun4 & Hwf4 & Hcfg4 & Hlive4); [reflexivity..|].
  exists this0, this4. split; [exact Hrun0|]. split; [|split].
  - cbn [times].
    rewrite (bind_ok _ _ _ _ _ Hrun1), (bind_ok _ _ _ _ _ Hrun2),
      (bind_ok _ _ _ _ _ Hrun3), (bind_ok _ _ _ _ _ Hrun4).
    reflexivity.
  - intros row col. rewrite Hlive0, covers_glider. reflexivity.
  - intros row col. rewrite Hlive4, Hlive0.
    rewrite <- (live_at_translate glider_gen0 1 1). reflexivity.
Qed.

Lemma C6_glider_translation_witness :
  exists this0 this4,
    addGlider 1 1 (constructor 5 7) = Ok (tt, this0) /\
    times 4 nextGeneration this0 = Ok (tt, this4) /\
    alive this4 2 3 = true /\ alive this4 1 2 = false.
Proof.
  destruct (C6_glider_translation 5 7) as (this0 & this4 & H0 & H4 & Hc & Ht);
    [lia | lia |].
  exists this0, this4. split; [exact H0|]. split; [exact H4|].
  rewrite !Ht, !Hc. split; reflexivity.
Defined.

(** C7. For positive [rows] and [cols], the new object has a grid of [rows]
    rows of [cols] cells, all dead: [getCell] returns [false] at every
    coordinate of the grid and [getPopulation] returns 0.  Its birth rule is
    {3} and its survival rule is {2, 3}. *)
Theorem C7_constructor (rows cols : Z) :
  0 < rows -> 0 < cols ->
  let this := constructor rows cols in
  getDimensions this = Ok ((rows, cols), this) /\
  Z.of_nat (length (grid this)) = rows /\
  Forall (fun r => Z.of_nat (length r) = cols) (grid this) /\
  (forall row col,
      0 <= row < rows -> 0 <= col < cols ->
      getCell row col this = Ok (false, this)) /\
  getPopulation this = Ok (0, this) /\
  getBirthRule this = Ok ([3], this) /\
  getSurvivalRule this = Ok ([2; 3], this) /\
  (forall n, JSSet.has (birthRule this) n = (n =? 3)) /\
  (forall n, JSSet.has (survivalRule this) n = (n =? 2) || (n =? 3)).
Proof.
  intros Hrows Hcols this.
  pose proof (constructor_wf rows cols) as Hwf. fold this in Hwf.
  split; [reflexivity|]. split; [|split; [|split; [|split]]].
  - destruct Hwf as [Hlen _]. simpl in *. lia.
  - destruct Hwf as [_ Hall]. eapply List.Forall_impl; [|exact Hall].
    simpl. intros r Hr. lia.
  - intros row col Hrow Hcol.
    rewrite (getCell_wf _ row col Hwf). unfold this.
    by rewrite constructor_dead.
  - rewrite (getPopulation_wf _ Hwf). unfold this. simpl.
    by rewrite count_true_empty.
  - split; [reflexivity|]. split; [reflexivity|]. split; intros n.
    + simpl. by rewrite orb_false_r.
    + simpl. by rewrite orb_false_r.
Qed.

Lemma C7_constructor_witness :
  getPopulation (constructor 2 3) = Ok (0, constructor 2 3).
Proof.
  apply (C7_constructor 2 3); lia.
Defined.

(** C8. In the grid, [toggleCell] flips the cell it is given and no other,
    and a second [toggleCell] of the same cell gives back the object the
    first one started from. *)
Theorem C8_toggleCell_involution (this : GameOfLife) (row col : Z) :
  wf this -> in_bounds this row col ->
  exists this',
    toggleCell row col this = Ok (tt, this') /\
    toggleCell row col this' = Ok (tt, this) /\
    (toggleCell row col ;;; toggleCell row col) this = Ok (tt, this) /\
    alive this' row col = negb (alive this row col) /\
    (forall row' col',
        row' <> row \/ col' <> col ->
        alive this' row' col' = alive this row' col') /\
    same_config this this'.
Proof.
  intros Hwf Hin.
  destruct (toggleCell_inside this row col Hwf Hin)
    as (this1 & Hrun1 & Hwf1 & Hcfg1 & Hv1 & Ho1).
  assert (Hin1 : in_bounds this1 row col).
  { destruct Hcfg1 as (Hr & Hc & _). unfold in_bounds in *. by rewrite Hr, Hc. }
  destruct (toggleCell_inside this1 row col Hwf1 Hin1)
    as (this2 & Hrun2 & Hwf2 & Hcfg2 & Hv2 & Ho2).
  assert (Heq : this2 = this).
  { apply state_ext; [done | done | by eapply same_config_trans |].
    intros row' col' _.
    destruct (decide (row' = row)) as [->|Hr];
      [destruct (decide (col' = col)) as [->|Hc]|].
    - rewrite Hv2, Hv1. apply negb_involutive.
    - rewrite Ho2, Ho1 by (by right). done.
    - rewrite Ho2, Ho1 by (by left). done. }
  subst this2. exists this1.
  split; [done|]. split; [done|]. split; [|done].
  by rewrite (bind_ok _ _ _ _ _ Hrun1).
Qed.

Lemma C8_toggleCell_involution_witness :
  (toggleCell 1 2 ;;; toggleCell 1 2)
    (mkGameOfLife [ [false; false; false];
                    [true; true; true];
                    [false; false; false] ] 3 3 [3] [2; 3])
  = Ok (tt, mkGameOfLife [ [false; false; false];
                           [true; true; true];
                           [false; false; false] ] 3 3 [3] [2; 3]).
Proof.
  destruct (C8_toggleCell_involution _ 1 2 blinker_wf)
    as (this' & _ & _ & Htwice & _).
  - vm_compute. intuition discriminate.
  - exact Htwice.
Defined.

(** C9. [nextGeneration] is a function of the grid and of the rules as sets:
    from two objects with the same grid and rule sets with the same elements
    (whatever the calls that built them, and whatever the order in which the
    rule sets were filled) it computes the same grid. *)
Theorem C9_nextGeneration_deterministic (this1 this2 : GameOfLife) :
  wf this1 ->
  grid this2 = grid this1 ->
  rows this2 = rows this1 -> cols this2 = cols this1 ->
  same_rule (birthRule this1) (birthRule this2) ->
  same_rule (survivalRule this1) (survivalRule this2) ->
  exists this1' this2',
    nextGeneration this1 = Ok (tt, this1') /\
    nextGeneration this2 = Ok (tt, this2') /\
    grid this2' = grid this1' /\
    forall row col, alive this2' row col = alive this1' row col.
Proof.
  intros Hwf1 Hg Hr Hc Hb Hs.
  assert (Hwf2 : wf this2) by (unfold wf; by rewrite Hg, Hr, Hc).
  destruct (nextGeneration_wf this1 Hwf1)
    as (t1 & Hrun1 & Hwft1 & (Hr1 & Hc1 & _) & Hnext1).
  destruct (nextGeneration_wf this2 Hwf2)
    as (t2 & Hrun2 & Hwft2 & (Hr2 & Hc2 & _) & Hnext2).
  exists t1, t2. split; [done|]. split; [done|].
  assert (Halive : forall row col, alive this2 row col = alive this1 row col).
  { intros row col. unfold alive, getCell. rewrite !bind_get.
    rewrite Hg, Hr, Hc.
    destruct ((row <? 0) || (row >=? rows this1) || (col <? 0)
              || (col >=? cols this1)); [reflexivity|].
    unfold lift. by destruct (arr_get (grid this1) row col). }
  assert (Hcells : forall row col, alive t2 row col = alive t1 row col).
  { intros row col.
    destruct (in_bounds_dec this1 row col) as [Hin|Hout].
    - assert (Hin2 : in_bounds this2 row col)
        by (unfold in_bounds in *; by rewrite Hr, Hc).
      rewrite Hnext1, Hnext2 by done.
      rewrite (moore_count_ext _ _ _ _ Halive), Halive.
      unfold next_state. destruct (alive this1 row col); [apply eq_sym, Hs|apply eq_sym, Hb].
    - rewrite !alive_outside; [done | |];
        unfold in_bounds in *; rewrite ?Hr1, ?Hc1, ?Hr2, ?Hc2, ?Hr, ?Hc; done. }
  split; [|done].
  unfold wf in Hwft1, Hwft2. rewrite Hr1, Hc1 in Hwft1.
  rewrite Hr2, Hc2, Hr, Hc in Hwft2.
  eapply shaped_ext; [exact Hwft2 | exact Hwft1 |].
  intros row col Hrow Hcol.
  assert (Hin1 : in_bounds t1 row col)
    by (unfold in_bounds; rewrite Hr1, Hc1; lia).
  assert (Hin2 : in_bounds t2 row col)
    by (unfold in_bounds; rewrite Hr2, Hc2, Hr, Hc; lia).
  assert (Hw1 : wf t1) by (unfold wf; by rewrite Hr1, Hc1).
  assert (Hw2 : wf t2) by (unfold wf; by rewrite Hr2, Hc2, Hr, Hc).
  rewrite (alive_inside t1), (alive_inside t2) by done.
  by rewrite Hcells.
Qed.

Lemma C9_nextGeneration_deterministic_witness :
  exists this1' this2',
    nextGeneration
      (mkGameOfLife [ [false; false; false];
                      [true; true; true];
                      [false; false; false] ] 3 3 [3] [2; 3])
    = Ok (tt, this1') /\
    nextGeneration
      (mkGameOfLife [ [false; false; false];
                      [true; true; true];
                      [false; false; false] ] 3 3 [3] [3; 2])
    = Ok (tt, this2') /\
    grid this2' = grid this1'.
Proof.
  destruct (C9_nextGeneration_deterministic
              (mkGameOfLife [ [false; false; false];
                              [true; true; true];
                              [false; false; false] ] 3 3 [3] [2; 3])
              (mkGameOfLife [ [false; false; false];
                              [true; true; true];
                              [false; false; false] ] 3 3 [3] [3; 2]))
    as (t1 & t2 & H1 & H2 & Hg & _).
  - exact blinker_wf.
  - reflexivity.
  - reflexivity.
  - reflexivity.
  - intros n. reflexivity.
  - intros n. simpl. rewrite !orb_false_r. apply orb_comm.
  - by exists t1, t2.
Defined.

(** C10. The constructor accepts dimensions that are not positive.  The
    object it builds, and any object with these dimensions (whatever its
    rules), has no cell; on it [getCell] returns [false] everywhere,
    [getPopulation] returns 0, and [setCell], [toggleCell], [clear],
    [nextGeneration], [addGlider] and [addGliderGun] return without a fault
    and leave the object as it was, so that the population stays 0. *)
Theorem C10_degenerate_dimensions (nrows ncols : Z) :
  nrows <= 0 \/ ncols <= 0 ->
  wf (constructor nrows ncols) /\
  rows (constructor nrows ncols) = nrows /\
  cols (constructor nrows ncols) = ncols /\
  forall this,
    wf this -> rows this = nrows -> cols this = ncols ->
    (forall row col, ~ in_bounds this row col) /\
    (forall row col, getCell row col this = Ok (false, this)) /\
    getPopulation this = Ok (0, this) /\
    (forall row col v, setCell row col v this = Ok (tt, this)) /\
    (forall row col, toggleCell row col this = Ok (tt, this)) /\
    clear this = Ok (tt, this) /\
    nextGeneration this = Ok (tt, this) /\
    (forall startRow startCol,
        addGlider startRow startCol this = Ok (tt, this)) /\
    (forall startRow startCol,
        addGliderGun startRow startCol this = Ok (tt, this)) /\
    (forall cs : list call,
        exists this',
          run_calls cs this = Ok (tt, this') /\
          getPopulation this' = Ok (0, this')).
Proof.
  intros Hdeg. split; [apply constructor_wf|]. split; [done|]. split; [done|].
  assert (Hpop : forall this,
             wf this -> rows this = nrows -> cols this = ncols ->
             getPopulation this = Ok (0, this)).
  { intros this Hwf Hr Hc.
    rewrite (getPopulation_wf _ Hwf), (degenerate_grid this Hwf) by lia.
    by rewrite count_true_empty. }
  intros this Hwf Hr Hc.
  assert (Hnone : forall row col, ~ in_bounds this row col)
    by (intros row col; unfold in_bounds; lia).
  assert (Hgrid : grid this = createEmptyGrid (rows this) (cols this))
    by (apply degenerate_grid; [done | lia]).
  split; [done|].
  split; [intros; by apply getCell_outside|].
  split.
  { rewrite (getPopulation_wf _ Hwf), Hgrid. by rewrite count_true_empty. }
  split; [intros; by apply setCell_outside|].
  split; [intros; by apply toggleCell_outside|].
  split.
  { unfold clear. rewrite bind_get. unfold set_grid, with_grid.
    rewrite <- Hgrid. by destruct this. }
  split.
  { destruct (nextGeneration_wf this Hwf) as (this' & Hrun & Hwf' & Hcfg & _).
    rewrite Hrun. do 2 f_equal.
    apply state_ext; [done | done | done |].
    intros row col Hin. by destruct (Hnone row col). }
  split; [intros; by apply stamp_degenerate|].
  split; [intros; by apply stamp_degenerate|].
  intros cs.
  destruct (run_calls_wf cs this Hwf) as (this' & Hrun & Hwf' & Hr' & Hc').
  exists this'. split; [done|]. apply Hpop; congruence.
Qed.

Lemma C10_degenerate_dimensions_witness :
  nextGeneration (constructor 3 (-2)) = Ok (tt, constructor 3 (-2)).
Proof.
  destruct (C10_degenerate_dimensions 3 (-2)) as (Hwf & _ & _ & Hops).
  - right. lia.
  - apply (Hops (constructor 3 (-2)) Hwf eq_refl eq_refl).
Defined.

(** * Further properties of the engine *)

(** ** Writing a cell *)

Lemma setCell_inside_grid this row col v :
  wf this -> in_bounds this row col ->
  exists g,
    arr_set (grid this) row col v = Ok g /\
    wf (with_grid this g) /\
    setCell row col v this = Ok (tt, with_grid this g).
Proof.
  intros Hwf Hin.
  destruct (grid_write this row col v Hwf Hin) as (g & Hset & Hwf' & _).
  exists g. split; [done|]. split; [done|].
  unfold setCell. rewrite bind_get, guard_inside by done.
  by rewrite (bind_lift_ok _ _ _ _ Hset).
Qed.

Lemma toggleCell_inside_grid this row col :
  wf this -> in_bounds this row col ->
  exists g,
    arr_set (grid this) row col (negb (alive this row col)) = Ok g /\
    wf (with_grid this g) /\
    toggleCell row col this = Ok (tt, with_grid this g).
Proof.
  intros Hwf Hin.
  destruct (grid_write this row col (negb (alive this row col)) Hwf Hin)
    as (g & Hset & Hwf' & _).
  exists g. split; [done|]. split; [done|].
  unfold toggleCell. rewrite bind_get, guard_inside by done.
  rewrite (bind_lift_ok _ _ _ _ (alive_inside _ _ _ Hwf Hin)).
  by rewrite (bind_lift_ok _ _ _ _ Hset).
Qed.

(** X1. In the grid, [setCell] writes the cell it is given and no other:
    [getCell] then returns the value written there and what it returned
    before everywhere else; the rules and the dimensions are unchanged. *)
Theorem X1_setCell_in_bounds (this : GameOfLife) (row col : Z) (v : bool) :
  wf this -> in_bounds this row col ->
  exists this',
    setCell row col v this = Ok (tt, this') /\
    wf this' /\ same_config this this' /\
    getCell row col this' = Ok (v, this') /\
    forall row' col',
      row' <> row \/ col' <> col ->
      getCell row' col' this' = Ok (alive this row' col', this').
Proof.
  intros Hwf Hin.
  destruct (setCell_inside this row col v Hwf Hin)
    as (this' & Hrun & Hwf' & Hcfg & Hv & Ho).
  exists this'. repeat (split; [done|]). split.
  - by rewrite (getCell_wf _ _ _ Hwf'), Hv.
  - intros row' col' Hne. by rewrite (getCell_wf _ _ _ Hwf'), Ho.
Qed.

Lemma X1_setCell_in_bounds_witness :
  exists this',
    setCell 0 2 true
      (mkGameOfLife [ [false; false; false];
                      [true; true; true];
                      [false; false; false] ] 3 3 [3] [2; 3])
    = Ok (tt, this') /\
    getCell 0 2 this' = Ok (true, this') /\
    getCell 1 1 this' = Ok (true, this').
Proof.
  destruct (X1_setCell_in_bounds _ 0 2 true blinker_wf)
    as (this' & Hrun & _ & _ & Hv & Ho).
  - vm_compute. intuition discriminate.
  - exists this'. split; [exact Hrun|]. split; [exact Hv|].
    rewrite (Ho 1 1); [reflexivity | left; discriminate].
Defined.

(** What two objects with the same rules and dimensions must agree on to be
    the same object. *)
Lemma run_eq {A} (a : A) this1 this2 :
  wf this1 -> wf this2 -> same_config this1 this2 ->
  (forall row col, alive this2 row col = alive this1 row col) ->
  Ok (a, this2) = Ok (a, this1).
Proof.
  intros H1 H2 Hcfg Hcells. do 2 f_equal.
  apply state_ext; [done | done | done |]. intros row col _. apply Hcells.
Qed.

(** X2. Writes compose as assignments do: of two writes of one cell the
    last one wins, writing a cell the value it has changes nothing, and
    writes of two different cells can be done in either order. *)
Theorem X2_setCell_compose (this : GameOfLife) (row col : Z) (v1 v2 : bool)
        (row' col' : Z) :
  wf this ->
  (setCell row col v1 ;;; setCell row col v2) this = setCell row col v2 this /\
  setCell row col (alive this row col) this = Ok (tt, this) /\
  (row' <> row \/ col' <> col ->
   (setCell row col v1 ;;; setCell row' col' v2) this
   = (setCell row' col' v2 ;;; setCell row col v1) this).
Proof.
  intros Hwf.
  destruct (setCell_wf this row col v1 Hwf) as (t1 & Hr1 & Hw1 & Hc1 & Ha1).
  destruct (setCell_wf this row col v2 Hwf) as (t2 & Hr2 & Hw2 & Hc2 & Ha2).
  destruct (setCell_wf t1 row col v2 Hw1) as (t12 & Hr12 & Hw12 & Hc12 & Ha12).
  destruct (setCell_wf this row col (alive this row col) Hwf)
    as (t0 & Hr0 & Hw0 & Hc0 & Ha0).
  split; [|split].
  - rewrite (bind_ok _ _ _ _ _ Hr1), Hr12, Hr2.
    apply run_eq; [done | done | |].
    + destruct Hc1 as (?&?&?&?), Hc2 as (?&?&?&?), Hc12 as (?&?&?&?).
      unfold same_config. repeat split; congruence.
    + intros r c. rewrite Ha12, Ha1, Ha2, (same_config_bounds _ _ _ _ Hc1).
      by destruct (in_boundsb this r c && (r =? row) && (c =? col)).
  - rewrite Hr0. apply run_eq; [done | done | done |].
    intros r c. rewrite Ha0.
    destruct (in_boundsb this r c && (r =? row) && (c =? col)) eqn:E; [|done].
    apply andb_true_iff in E as [E Ec]. apply andb_true_iff in E as [_ Er].
    apply Z.eqb_eq in Er, Ec. by subst.
  - intros Hne.
    destruct (setCell_wf this row' col' v2 Hwf) as (s1 & Hs1 & Hws1 & Hcs1 & Has1).
    destruct (setCell_wf t1 row' col' v2 Hw1) as (ta & Hta & Hwa & Hca & Haa).
    destruct (setCell_wf s1 row col v1 Hws1) as (tb & Htb & Hwb & Hcb & Hab).
    rewrite (bind_ok _ _ _ _ _ Hr1), (bind_ok _ _ _ _ _ Hs1), Hta, Htb.
    apply run_eq; [done | done | |].
    + destruct Hc1 as (?&?&?&?), Hcs1 as (?&?&?&?), Hca as (?&?&?&?),
        Hcb as (?&?&?&?).
      unfold same_config. repeat split; congruence.
    + intros r c.
      rewrite Haa, Hab, Ha1, Has1, (same_config_bounds _ _ _ _ Hc1),
        (same_config_bounds _ _ _ _ Hcs1).
      destruct (in_boundsb this r c); [|done]. simpl.
      destruct (Z.eqb_spec r row), (Z.eqb_spec c col),
        (Z.eqb_spec r row'), (Z.eqb_spec c col'); simpl; try done; lia.
Qed.

Lemma X2_setCell_compose_witness :
  (setCell 0 0 true ;;; setCell 0 0 false)
    (mkGameOfLife [ [false; false; false];
                    [true; true; true];
                    [false; false; false] ] 3 3 [3] [2; 3])
  = setCell 0 0 false
      (mkGameOfLife [ [false; false; false];
                      [true; true; true];
                      [false; false; false] ] 3 3 [3] [2; 3]).
Proof.
  apply (X2_setCell_compose _ 0 0 true false 1 1 blinker_wf).
Defined.

(** ** The population *)

Lemma count_true_cons (r : list bool) (a : list (list bool)) :
  count_true (r :: a) = count_true [r] + count_true a.
Proof. apply (count_true_app [r] a). Qed.

Lemma count_true_row_bounds (r : list bool) :
  0 <= count_true [r] <= Z.of_nat (length r).
Proof.
  rewrite count_true_row. pose proof (List.filter_length_le (fun b : bool => b) r).
  lia.
Qed.

Lemma count_true_bounds (nr nc : nat) (a : list (list bool)) :
  shaped a nr nc -> 0 <= count_true a <= Z.of_nat nr * Z.of_nat nc.
Proof.
  intros [Hlen Hall]. subst nr. induction a as [|r a IH].
  - unfold count_true. simpl. lia.
  - apply List.Forall_cons_iff in Hall as [Hr Hall].
    rewrite count_true_cons. specialize (IH Hall).
    pose proof (count_true_row_bounds r). simpl length. nia.
Qed.

Lemma count_true_row_insert (r : list bool) (j : nat) (old v : bool) :
  r !! j = Some old ->
  count_true [<[j := v]> r] = count_true [r] - Z.b2z old + Z.b2z v.
Proof.
  intros Hj. rewrite !count_true_row.
  assert (Hlt : (j < length r)%nat) by (apply lookup_lt_is_Some; eauto).
  rewrite insert_take_drop by done.
  rewrite <- (take_drop_middle r j old Hj) at 3.
  rewrite !List.filter_app, !length_app. simpl.
  destruct old, v; simpl; lia.
Qed.

Lemma count_true_insert (a : list (list bool)) (i : nat) (r r' : list bool) :
  a !! i = Some r ->
  count_true (<[i := r']> a) = count_true a - count_true [r] + count_true [r'].
Proof.
  intros Hi.
  assert (Hlt : (i < length a)%nat) by (apply lookup_lt_is_Some; eauto).
  rewrite insert_take_drop by done.
  rewrite <- (take_drop_middle a i r Hi) at 3.
  rewrite !count_true_app, !(count_true_cons _ (drop _ _)). lia.
Qed.

Lemma count_true_set (a a' : list (list bool)) (row col : Z) (old v : bool) :
  arr_get a row col = Ok old -> arr_set a row col v = Ok a' ->
  count_true a' = count_true a - Z.b2z old + Z.b2z v.
Proof.
  unfold arr_get, arr_set.
  destruct (row <? 0); [done|].
  destruct (a !! Z.to_nat row) as [r|] eqn:Er; [|done].
  destruct (col <? 0); [done|]. simpl.
  destruct (r !! Z.to_nat col) as [b|] eqn:Eb; [|done].
  destruct (Z.of_nat (length r) <=? col); [done|].
  intros [= ->] [= <-].
  rewrite (count_true_insert _ _ _ _ Er), (count_true_row_insert _ _ _ _ Eb).
  lia.
Qed.

(** X3. [getPopulation] returns the number of [true] in the grid and leaves
    the object as it was; the number lies between 0 and [rows * cols]. *)
Theorem X3_getPopulation_counts (this : GameOfLife) :
  wf this ->
  getPopulation this = Ok (count_true (grid this), this) /\
  0 <= count_true (grid this) <= Z.max (rows this) 0 * Z.max (cols this) 0.
Proof.
  intros Hwf. split; [by apply getPopulation_wf|].
  pose proof (count_true_bounds _ _ _ Hwf). lia.
Qed.

Lemma X3_getPopulation_counts_witness :
  getPopulation
    (mkGameOfLife [ [false; false; false];
                    [true; true; true];
                    [false; false; false] ] 3 3 [3] [2; 3])
  = Ok (3, mkGameOfLife [ [false; false; false];
                          [true; true; true];
                          [false; false; false] ] 3 3 [3] [2; 3]).
Proof.
  apply (X3_getPopulation_counts _ blinker_wf).
Defined.

(** X4. In the grid, a write moves the population by what it does to its
    cell: [setCell] by the difference between the value written and the
    value the cell had, [toggleCell] by one, down for a live cell and up for
    a dead one. *)
Theorem X4_population_after_write (this : GameOfLife) (row col : Z)
        (v : bool) :
  wf this -> in_bounds this row col ->
  exists n,
    getPopulation this = Ok (n, this) /\
    (exists this',
        setCell row col v this = Ok (tt, this') /\
        getPopulation this'
        = Ok (n - Z.b2z (alive this row col) + Z.b2z v, this')) /\
    (exists this',
        toggleCell row col this = Ok (tt, this') /\
        getPopulation this'
        = Ok (if alive this row col then n - 1 else n + 1, this')).
Proof.
  intros Hwf Hin. exists (count_true (grid this)).
  split; [by apply getPopulation_wf|].
  pose proof (alive_inside this row col Hwf Hin) as Hold.
  split.
  - destruct (setCell_inside_grid this row col v Hwf Hin)
      as (g & Hset & Hwf' & Hrun).
    exists (with_grid this g). split; [done|].
    rewrite (getPopulation_wf _ Hwf'). simpl.
    by rewrite (count_true_set _ _ _ _ _ _ Hold Hset).
  - destruct (toggleCell_inside_grid this row col Hwf Hin)
      as (g & Hset & Hwf' & Hrun).
    exists (with_grid this g). split; [done|].
    rewrite (getPopulation_wf _ Hwf'). simpl.
    rewrite (count_true_set _ _ _ _ _ _ Hold Hset).
    do 2 f_equal. destruct (alive this row col); simpl; lia.
Qed.

Lemma X4_population_after_write_witness :
  exists this',
    toggleCell 1 1
      (mkGameOfLife [ [false; false; false];
                      [true; true; true];
                      [false; false; false] ] 3 3 [3] [2; 3])
    = Ok (tt, this') /\
    getPopulation this' = Ok (2, this').
Proof.
  destruct (X4_population_after_write _ 1 1 true blinker_wf)
    as (n & Hn & _ & (this' & Hrun & Hpop)).
  - vm_compute. intuition discriminate.
  - exists this'. split; [exact Hrun|].
    rewrite Hpop. injection Hn as <-. reflexivity.
Defined.

(** X5. [clear], on any object: every cell is dead afterwards and the
    population is 0, the rules and the dimensions are unchanged, and a second
    [clear] changes nothing more. *)
Theorem X5_clear (this : GameOfLife) :
  exists this',
    clear this = Ok (tt, this') /\
    wf this' /\ same_config this this' /\
    (forall row col, getCell row col this' = Ok (false, this')) /\
    getPopulation this' = Ok (0, this') /\
    clear this' = Ok (tt, this').
Proof.
  destruct (clear_wf this) as (this' & Hrun & Hwf' & Hcfg & Hgrid & Hdead).
  exists this'. repeat (split; [done|]). split; [|split].
  - intros row col. by rewrite (getCell_wf _ _ _ Hwf'), Hdead.
  - rewrite (getPopulation_wf _ Hwf'), Hgrid. by rewrite count_true_empty.
  - destruct Hcfg as (Hr & Hc & _).
    unfold clear. rewrite bind_get. unfold set_grid, with_grid.
    rewrite <- Hr, <- Hc in Hgrid. rewrite <- Hgrid. by destruct this'.
Qed.

(** ** Neighbour counts and rules *)

Lemma moore_count_sum (f : Z -> Z -> bool) (row col : Z) :
  moore_count f row col
  = Z.b2z (f (row + -1) (col + -1)) + Z.b2z (f (row + -1) (col + 0))
    + Z.b2z (f (row + -1) (col + 1)) + Z.b2z (f (row + 0) (col + -1))
    + Z.b2z (f (row + 0) (col + 1)) + Z.b2z (f (row + 1) (col + -1))
    + Z.b2z (f (row + 1) (col + 0)) + Z.b2z (f (row + 1) (col + 1)).
Proof.
  unfold moore_count, moore_offsets.
  cbn [list_prod List.filter app map fst snd Z.eqb andb negb].
  destruct (f (row + -1) (col + -1)), (f (row + -1) (col + 0)),
    (f (row + -1) (col + 1)), (f (row + 0) (col + -1)),
    (f (row + 0) (col + 1)), (f (row + 1) (col + -1)),
    (f (row + 1) (col + 0)), (f (row + 1) (col + 1)); reflexivity.
Qed.

Lemma moore_count_bounds (f : Z -> Z -> bool) (row col : Z) :
  0 <= moore_count f row col <= 8.
Proof.
  rewrite moore_count_sum.
  destruct (f (row + -1) (col + -1)), (f (row + -1) (col + 0)),
    (f (row + -1) (col + 1)), (f (row + 0) (col + -1)),
    (f (row + 0) (col + 1)), (f (row + 1) (col + -1)),
    (f (row + 1) (col + 0)), (f (row + 1) (col + 1)); simpl; lia.
Qed.

Lemma alive_b2z this row col :
  0 <= Z.b2z (alive this row col) <= 1 /\
  (in_bounds this row col \/ Z.b2z (alive this row col) = 0).
Proof.
  split; [destruct (alive this row col); simpl; lia|].
  destruct (in_bounds_dec this row col) as [Hin|Hout]; [by left|].
  right. by rewrite alive_outside.
Qed.

(** X6. [countNeighbors] leaves the object as it was and returns a count
    between 0 and 8: at most 5 for a cell on an edge of the grid, at most 3
    for a cell in a corner, and 0 for a position that does not touch the
    grid. *)
Theorem X6_countNeighbors_range (this : GameOfLife) (row col : Z) :
  wf this ->
  exists n,
    countNeighbors row col this = Ok (n, this) /\
    0 <= n <= 8 /\
    (row = 0 \/ row = rows this - 1 \/ col = 0 \/ col = cols this - 1 ->
     n <= 5) /\
    ((row = 0 \/ row = rows this - 1) /\ (col = 0 \/ col = cols this - 1) ->
     n <= 3) /\
    (row < -1 \/ rows this < row \/ col < -1 \/ cols this < col -> n = 0).
Proof.
  intros Hwf. exists (moore_count (alive this) row col).
  split; [by apply countNeighbors_wf|].
  split; [apply moore_count_bounds|].
  rewrite moore_count_sum.
  pose proof (alive_b2z this (row + -1) (col + -1)).
  pose proof (alive_b2z this (row + -1) (col + 0)).
  pose proof (alive_b2z this (row + -1) (col + 1)).
  pose proof (alive_b2z this (row + 0) (col + -1)).
  pose proof (alive_b2z this (row + 0) (col + 1)).
  pose proof (alive_b2z this (row + 1) (col + -1)).
  pose proof (alive_b2z this (row + 1) (col + 0)).
  pose proof (alive_b2z this (row + 1) (col + 1)).
  unfold in_bounds in *.
  repeat match goal with
         | H : _ /\ _ |- _ => destruct H
         | |- context [Z.b2z ?b] =>
             let x := fresh "x" in
             generalize dependent (Z.b2z b); intros x; intros
         end.
  repeat split; intros; lia.
Qed.

Lemma X6_countNeighbors_range_witness :
  exists n,
    countNeighbors 0 0
      (mkGameOfLife [ [false; false; false];
                      [true; true; true];
                      [false; false; false] ] 3 3 [3] [2; 3])
    = Ok (n, mkGameOfLife [ [false; false; false];
                            [true; true; true];
                            [false; false; false] ] 3 3 [3] [2; 3]) /\
    n <= 3.
Proof.
  destruct (X6_countNeighbors_range _ 0 0 blinker_wf)
    as (n & Hrun & _ & _ & Hcorner & _).
  exists n. split; [exact Hrun|]. apply Hcorner. split; left; reflexivity.
Defined.

Lemma alive_same_grid this1 this2 row col :
  grid this2 = grid this1 -> rows this2 = rows this1 ->
  cols this2 = cols this1 ->
  alive this2 row col = alive this1 row col.
Proof.
  intros Hg Hr Hc. unfold alive, getCell. rewrite !bind_get.
  rewrite Hg, Hr, Hc.
  destruct ((row <? 0) || (row >=? rows this1) || (col <? 0)
            || (col >=? cols this1)); [reflexivity|].
  unfold lift. by destruct (arr_get (grid this1) row col).
Qed.





(** X8. On a grid with no live cell every count is 0, so the next generation
    is decided by whether 0 is in the birth rule: if it is, every cell of the
    grid is born; if it is not, [nextGeneration] leaves the object as it
    was. *)
Theorem X8_empty_grid (this : GameOfLife) :
  wf this ->
  (forall row col, alive this row col = false) ->
  exists this',
    nextGeneration this = Ok (tt, this') /\
    (forall row col,
        in_bounds this row col ->
        alive this' row col = JSSet.has (birthRule this) 0) /\
    (JSSet.has (birthRule this) 0 = false -> this' = this).
Proof.
  intros Hwf Hdead.
  destruct (nextGeneration_wf this Hwf) as (this' & Hrun & Hwf' & Hcfg & Hnext).
  exists this'. split; [done|].
  assert (Hcells : forall row col,
             in_bounds this row col ->
             alive this' row col = JSSet.has (birthRule this) 0).
  { intros row col Hin. rewrite Hnext, Hdead by done.
    rewrite moore_count_zero; [reflexivity|]. intros; apply Hdead. }
  split; [done|].
  intros Hb0. apply state_ext; [done | done | done |].
  intros row col Hin. by rewrite Hcells, Hdead.
Qed.

Lemma X8_empty_grid_witness :
  nextGeneration (constructor 2 3) = Ok (tt, constructor 2 3).
Proof.
  destruct (X8_empty_grid (constructor 2 3) (constructor_wf 2 3)
              (constructor_dead 2 3)) as (this' & Hrun & _ & Hfix).
  rewrite Hrun. rewrite Hfix; reflexivity.
Defined.

(** X9. Under the default rules [nextGeneration] applies the four rules the
    head of the file states: a live cell with fewer than two live neighbours
    dies, one with two or three lives on, one with more than three dies, and
    a dead cell becomes alive exactly when it has three live neighbours. *)
Theorem X9_conway_rules (this : GameOfLife) :
  wf this ->
  birthRule this = [3] -> survivalRule this = [2; 3] ->
  exists this',
    nextGeneration this = Ok (tt, this') /\
    forall row col,
      in_bounds this row col ->
      let n := moore_count (alive this) row col in
      (alive this row col = true -> n < 2 -> alive this' row col = false) /\
      (alive this row col = true -> n = 2 \/ n = 3 ->
       alive this' row col = true) /\
      (alive this row col = true -> 3 < n -> alive this' row col = false) /\
      (alive this row col = false ->
       alive this' row col = true <-> n = 3).
Proof.
  intros Hwf Hb Hs.
  destruct (nextGeneration_wf this Hwf) as (this' & Hrun & _ & _ & Hnext).
  exists this'. split; [done|].
  intros row col Hin n. rewrite (Hnext row col Hin), Hb, Hs.
  fold n. unfold next_state, JSSet.has. simpl.
  destruct (alive this row col), (Z.eqb_spec n 2), (Z.eqb_spec n 3); simpl;
    repeat split; intros; try done; lia.
Qed.

Lemma X9_conway_rules_witness :
  exists this',
    nextGeneration
      (mkGameOfLife [ [false; false; false];
                      [true; true; true];
                      [false; false; false] ] 3 3 [3] [2; 3])
    = Ok (tt, this') /\
    alive this' 1 0 = false.
Proof.
  destruct (X9_conway_rules _ blinker_wf eq_refl eq_refl)
    as (this' & Hrun & Hrules).
  exists this'. split; [exact Hrun|].
  destruct (Hrules 1 0) as (Hunder & _).
  - vm_compute. intuition discriminate.
  - apply Hunder; [reflexivity | vm_compute; reflexivity].
Defined.

(** X10. With an empty survival rule no cell survives a generation: after
    [setSurvivalRule([])] and [nextGeneration], every cell that was alive is
    dead, and the live cells are the dead cells of before whose count is in
    the birth rule. *)
Theorem X10_empty_survival (this : GameOfLife) :
  wf this ->
  exists this',
    (setSurvivalRule [] ;;; nextGeneration) this = Ok (tt, this') /\
    (forall row col, alive this row col = true -> alive this' row col = false) /\
    (forall row col,
        in_bounds this row col -> alive this row col = false ->
        alive this' row col
        = JSSet.has (birthRule this) (moore_count (alive this) row col)).
Proof.
  intros Hwf.
  set (this1 := mkGameOfLife (grid this) (rows this) (cols this)
                  (birthRule this) (JSSet.from_array [])).
  assert (Hwf1 : wf this1) by exact Hwf.
  assert (Halive : forall row col, alive this1 row col = alive this row col)
    by (intros; by apply alive_same_grid).
  destruct (nextGeneration_wf this1 Hwf1)
    as (this' & Hrun & Hwf' & Hcfg & Hnext).
  exists this'. split; [exact Hrun|]. split.
  - intros row col Ha.
    destruct (in_bounds_dec this row col) as [Hin|Hout].
    + rewrite (Hnext row col Hin), Halive, Ha. reflexivity.
    + rewrite alive_outside in Ha by done. discriminate.
  - intros row col Hin Ha.
    rewrite (Hnext row col Hin), Halive, Ha.
    by rewrite (moore_count_ext _ _ _ _ Halive).
Qed.

Lemma X10_empty_survival_witness :
  exists this',
    (setSurvivalRule [] ;;; nextGeneration)
      (mkGameOfLife [ [false; false; false];
                      [true; true; true];
                      [false; false; false] ] 3 3 [3] [2; 3])
    = Ok (tt, this') /\
    alive this' 1 1 = false.
Proof.
  destruct (X10_empty_survival _ blinker_wf) as (this' & Hrun & Hdie & _).
  exists this'. split; [exact Hrun|]. apply Hdie. reflexivity.
Defined.

(** ** Sequences of calls *)


(** ** The rule sets, for all counts *)

Lemma sort_insert_NoDup (x : Z) (s : list Z) :
  ~ In x s -> List.NoDup s -> List.NoDup (sort_insert x s).
Proof.
  induction s as [|y s IH]; intros Hnot Hnd; simpl.
  - constructor; [by intros [] | constructor].
  - destruct (SortCompare x y <=? 0).
    + by constructor.
    + apply List.NoDup_cons_iff in Hnd as [Hy Hnd].
      constructor.
      * rewrite sort_insert_In. intros [->|Hin]; [|done].
        apply Hnot. by left.
      * apply IH; [|done]. intros Hin. apply Hnot. by right.
Qed.

Lemma Array_sort_NoDup (a : list Z) :
  List.NoDup a -> List.NoDup (Array_sort a).
Proof.
  induction a as [|x a IH]; intros Hnd; [constructor|].
  apply List.NoDup_cons_iff in Hnd as [Hx Hnd]. simpl.
  apply sort_insert_NoDup; [by rewrite Array_sort_In | by apply IH].
Qed.

(** X12. A rule setter replaces the rule set by the counts it is given,
    whatever the set held before and whatever the counts are: the getter
    then returns each of the counts once and nothing else, and the set
    holds exactly the counts.  The grid, the dimensions and the other rule
    set are untouched. *)
Theorem X12_rule_setters_replace (this : GameOfLife) (counts : list Z) :
  (exists result this',
      (setBirthRule counts ;;; getBirthRule) this = Ok (result, this') /\
      List.NoDup result /\ (forall x, In x result <-> In x counts) /\
      (forall n, JSSet.has (birthRule this') n = true <-> In n counts) /\
      grid this' = grid this /\ rows this' = rows this /\
      cols this' = cols this /\ survivalRule this' = survivalRule this) /\
  (exists result this',
      (setSurvivalRule counts ;;; getSurvivalRule) this = Ok (result, this') /\
      List.NoDup result /\ (forall x, In x result <-> In x counts) /\
      (forall n, JSSet.has (survivalRule this') n = true <-> In n counts) /\
      grid this' = grid this /\ rows this' = rows this /\
      cols this' = cols this /\ birthRule this' = birthRule this).
Proof.
  destruct (from_array_spec counts) as [Hnd Hmem].
  split; eexists _, _; (split; [reflexivity|]);
    (split; [by apply Array_sort_NoDup|]);
    (split; [intros x; by rewrite Array_sort_In, Hmem|]);
    (split; [intros n; simpl; by rewrite has_In, Hmem|]); done.
Qed.








(** ** [randomize] *)

(** X14. [randomize] writes every cell of the grid once, with the outcome of
    the draw made for that cell: what the grid held before plays no role.
    The rules and the dimensions are unchanged. *)
Theorem X14_randomize_overwrites (this : GameOfLife)
        (below : Z -> Z -> bool) :
  wf this ->
  exists this',
    randomize below this = Ok (tt, this') /\
    wf this' /\ same_config this this' /\
    forall row col, in_bounds this row col -> alive this' row col = below row col.
Proof.
  intros Hwf. unfold randomize. rewrite bind_get.
  pose (I := fun (i : Z) (_ : unit) (this1 : GameOfLife) =>
    wf this1 /\ same_config this this1 /\
    forall row col, in_bounds this row col -> row < i ->
                    alive this1 row col = below row col).
  match goal with
  | |- exists this', for_upto ?b ?body ?s ?t = _ /\ _ =>
      destruct (for_upto_inv I b body s t)
        as ([] & this1 & Hrun & Hwf1 & Hcfg1 & Hcells1)
  end.
  - split; [done|]. split; [apply same_config_refl|].
    intros row col [Hr _] Hlt. lia.
  - intros i [] this0 Hi (Hwf0 & Hcfg0 & Hcells0).
    pose (J := fun (j : Z) (_ : unit) (this1 : GameOfLife) =>
      wf this1 /\ same_config this this1 /\
      (forall row col, in_bounds this row col -> row < i ->
                       alive this1 row col = below row col) /\
      (forall col, 0 <= col < j -> alive this1 i col = below i col)).
    match goal with
    | |- exists s' this', for_upto ?b ?body ?s ?t = _ /\ _ =>
        destruct (for_upto_inv J b body s t)
          as ([] & this1 & Hrun & Hwf1 & Hcfg1 & Hcells1 & Hrow1)
    end.
    + split; [done|]. split; [done|]. split; [done|]. intros; lia.
    + intros j [] this1 Hj (Hwf1 & Hcfg1 & Hcells1 & Hrow1).
      assert (Hin : in_bounds this1 i j).
      { destruct Hcfg1 as (Hr & Hc & _). unfold in_bounds.
        rewrite Hr, Hc. lia. }
      destruct (grid_write this1 i j (below i j) Hwf1 Hin)
        as (g & Hset & Hwf2 & Hv & Ho).
      exists tt, (with_grid this1 g). split.
      { by rewrite bind_get, (bind_lift_ok _ _ _ _ Hset). }
      split; [done|]. split.
      { eapply same_config_trans; [exact Hcfg1 | done]. }
      split.
      * intros row col Hb Hlt. rewrite Ho by lia. by apply Hcells1.
      * intros col Hcol. destruct (decide (col = j)) as [->|Hne]; [done|].
        rewrite Ho by lia. apply Hrow1. lia.
    + exists tt, this1. split; [done|]. split; [done|]. split; [done|].
      intros row col Hb Hlt.
      destruct (decide (row = i)) as [->|Hne].
      * apply Hrow1. destruct Hb. lia.
      * apply Hcells1; [done | lia].
  - exists this1. split; [done|]. split; [done|]. split; [done|].
    intros row col Hb. apply Hcells1; [done|]. destruct Hb. lia.
Qed.

Lemma X14_randomize_overwrites_witness :
  exists this',
    randomize (fun row col => row =? col)
      (mkGameOfLife [ [false; false; false];
                      [true; true; true];
                      [false; false; false] ] 3 3 [3] [2; 3])
    = Ok (tt, this') /\
    alive this' 1 0 = false /\ alive this' 2 2 = true.
Proof.
  destruct (X14_randomize_overwrites _ (fun row col => row =? col) blinker_wf)
    as (this' & Hrun & _ & _ & Hcells).
  exists this'. split; [exact Hrun|].
  split; (rewrite Hcells; [reflexivity | vm_compute; intuition discriminate]).
Defined.

(** ** Stamping, composed *)

Lemma stamp_twice (p : list (list Z)) (a b : Z) this :
  wf this ->
  (stamp_rows p a b 0 ;;; stamp_rows p a b 0) this = stamp_rows p a b 0 this.
Proof.
  intros Hwf.
  destruct (stamp_rows_wf a b p 0 this Hwf) as (t1 & Hr1 & Hw1 & Hc1 & Ha1).
  destruct (stamp_rows_wf a b p 0 t1 Hw1) as (t2 & Hr2 & Hw2 & Hc2 & Ha2).
  rewrite (bind_ok _ _ _ _ _ Hr1), Hr2, Hr1.
  apply run_eq; [done | done | |].
  - destruct Hc1 as (?&?&?&?), Hc2 as (?&?&?&?).
    unfold same_config. repeat split; congruence.
  - intros r c. rewrite Ha2, Ha1, (same_config_bounds _ _ _ _ Hc1).
    destruct (alive this r c), (in_boundsb this r c),
      (covers p (a + 0) b r c); reflexivity.
Qed.

Lemma stamp_commute (p q : list (list Z)) (a b c d : Z) this :
  wf this ->
  (stamp_rows p a b 0 ;;; stamp_rows q c d 0) this
  = (stamp_rows q c d 0 ;;; stamp_rows p a b 0) this.
Proof.
  intros Hwf.
  destruct (stamp_rows_wf a b p 0 this Hwf) as (t1 & Hr1 & Hw1 & Hc1 & Ha1).
  destruct (stamp_rows_wf c d q 0 t1 Hw1) as (t2 & Hr2 & Hw2 & Hc2 & Ha2).
  destruct (stamp_rows_wf c d q 0 this Hwf) as (s1 & Hs1 & Hv1 & Hd1 & Hb1).
  destruct (stamp_rows_wf a b p 0 s1 Hv1) as (s2 & Hs2 & Hv2 & Hd2 & Hb2).
  rewrite (bind_ok _ _ _ _ _ Hr1), (bind_ok _ _ _ _ _ Hs1), Hr2, Hs2.
  apply run_eq; [done | done | |].
  - destruct Hc1 as (?&?&?&?), Hc2 as (?&?&?&?), Hd1 as (?&?&?&?),
      Hd2 as (?&?&?&?).
    unfold same_config. repeat split; congruence.
  - intros r0 c0.
    rewrite Ha2, Ha1, Hb2, Hb1, (same_config_bounds _ _ _ _ Hc1),
      (same_config_bounds _ _ _ _ Hd1).
    destruct (alive this r0 c0), (in_boundsb this r0 c0),
      (covers p (a + 0) b r0 c0), (covers q (c + 0) d r0 c0); reflexivity.
Qed.

(** X15. Stamping composes as a union does: stamping a template twice at
    one offset is stamping it once, and a glider and a glider gun can be
    stamped in either order, at any offsets, with the same result. *)
Theorem X15_stamping_composes (this : GameOfLife) (a b c d : Z) :
  wf this ->
  (addGlider a b ;;; addGlider a b) this = addGlider a b this /\
  (addGliderGun c d ;;; addGliderGun c d) this = addGliderGun c d this /\
  (addGlider a b ;;; addGliderGun c d) this
  = (addGliderGun c d ;;; addGlider a b) this /\
  (addGlider a b ;;; addGlider c d) this
  = (addGlider c d ;;; addGlider a b) this.
Proof.
  intros Hwf. unfold addGlider, addGliderGun.
  split; [by apply stamp_twice|]. split; [by apply stamp_twice|].
  split; by apply stamp_commute.
Qed.

Lemma X15_stamping_composes_witness :
  (addGlider 0 1 ;;; addGlider 0 1)
    (mkGameOfLife [ [false; false; false];
                    [true; true; true];
                    [false; false; false] ] 3 3 [3] [2; 3])
  = addGlider 0 1
      (mkGameOfLife [ [false; false; false];
                      [true; true; true];
                      [false; false; false] ] 3 3 [3] [2; 3]).
Proof.
  apply (X15_stamping_composes _ 0 1 0 0 blinker_wf).
Defined.

(** ** Patterns, anywhere in the grid *)

Lemma live_at_shift (cells : list (Z * Z)) (dr dc row col : Z) :
  live_at (shift dr dc cells) row col = live_at cells (row - dr) (col - dc).
Proof. apply live_at_translate. Qed.

Lemma moore_count_shift (f : Z -> Z -> bool) (dr dc row col : Z) :
  moore_count (fun r c => f (r - dr) (c - dc)) row col
  = moore_count f (row - dr) (col - dc).
Proof.
  rewrite !moore_count_sum.
  repeat match goal with
         | |- _ + _ = _ + _ => f_equal
         end;
    f_equal; f_equal; lia.
Qed.

Lemma shows_spec this (cells : list (Z * Z)) :
  shows this cells = true ->
  forall row col, alive this row col = live_at cells row col.
Proof.
  unfold shows. rewrite andb_true_iff, !forallb_forall.
  intros [Hin Hall] row col.
  destruct (in_bounds_dec this row col) as [Hb|Hout].
  - assert (Hr : In row (seqZ 0 (rows this)))
      by (apply list_elem_of_In, elem_of_seqZ; destruct Hb; lia).
    specialize (Hall row Hr). rewrite forallb_forall in Hall.
    assert (Hc : In col (seqZ 0 (cols this)))
      by (apply list_elem_of_In, elem_of_seqZ; destruct Hb; lia).
    specialize (Hall col Hc). by apply Bool.eqb_prop in Hall.
  - rewrite alive_outside by done.
    destruct (live_at cells row col) eqn:E; [|done].
    unfold live_at in E. apply existsb_exists in E as ([r c] & Hp & Heq).
    specialize (Hin _ Hp). simpl in *. apply in_boundsb_iff in Hin.
    destruct Hout. assert (r = row /\ c = col) as [<- <-] by lia. done.
Qed.

(** One generation of an object whose live cells are the configuration
    [cells] moved by [(dr, dc)]. *)
Lemma nextGeneration_evolves_shift this lo hi dr dc cells cells' :
  wf this ->
  (forall row col, alive this row col = live_at (shift dr dc cells) row col) ->
  JSSet.has (birthRule this) 0 = false ->
  within (lo + 1) (hi - 1) cells = true ->
  within lo hi cells' = true ->
  (forall row col,
      live_at cells' row col = true -> in_bounds this (row + dr) (col + dc)) ->
  evolves_on (birthRule this) (survivalRule this) lo hi cells cells' = true ->
  exists this',
    nextGeneration this = Ok (tt, this') /\
    wf this' /\ same_config this this' /\
    forall row col, alive this' row col = live_at (shift dr dc cells') row col.
Proof.
  intros Hwf Hlive Hb0 Hin Hin' Hbounds Hev.
  destruct (nextGeneration_wf this Hwf) as (this' & Hrun & Hwf' & Hcfg & Hnext).
  exists this'. split; [done|]. split; [done|]. split; [done|].
  assert (Hlive' : forall row col,
             alive this row col = live_at cells (row - dr) (col - dc))
    by (intros; by rewrite Hlive, live_at_shift).
  intros row col. rewrite live_at_shift.
  destruct (in_bounds_dec this row col) as [Hib|Hob].
  - rewrite Hnext by done.
    rewrite (moore_count_ext _ _ _ _ Hlive'), Hlive'.
    rewrite (moore_count_shift (live_at cells)).
    assert (Hbox : (lo <= row - dr <= hi /\ lo <= col - dc <= hi)
                   \/ ~ (lo <= row - dr <= hi /\ lo <= col - dc <= hi)) by lia.
    destruct Hbox as [[Hr Hc]|Hout].
    + by apply evolves_on_cell with lo hi.
    + rewrite (live_at_outside lo hi cells') by done.
      rewrite (live_at_outside (lo + 1) (hi - 1) cells) by (done || lia).
      rewrite moore_count_zero; [exact Hb0|].
      intros r c Hr Hc.
      apply (live_at_outside (lo + 1) (hi - 1)); [done | lia].
  - rewrite alive_outside.
    + destruct (live_at cells' (row - dr) (col - dc)) eqn:E; [|done].
      destruct Hob. apply Hbounds in E.
      by replace (row - dr + dr) with row in E by lia;
         replace (col - dc + dc) with col in E by lia.
    + destruct Hcfg as (Hr & Hc & _). unfold in_bounds in *.
      by rewrite Hr, Hc.
Qed.

(** The cells of a moved configuration are in the grid when the square
    [[lo, hi]²] around the configuration, moved, is. *)
Lemma within_in_bounds this lo hi dr dc (cells : list (Z * Z)) :
  within lo hi cells = true ->
  in_bounds this (lo + dr) (lo + dc) -> in_bounds this (hi + dr) (hi + dc) ->
  forall row col,
    live_at cells row col = true -> in_bounds this (row + dr) (col + dc).
Proof.
  intros Hw [Hr1 Hc1] [Hr2 Hc2] row col Hl.
  destruct (live_at_within _ _ _ _ _ Hw Hl). unfold in_bounds. lia.
Qed.

(** X16. Under the default rules a 2 x 2 block is a still life wherever it
    lies: on an object whose live cells are the four cells of a block with
    its top-left cell at [(a, b)], [nextGeneration] leaves the object as it
    was. *)
Theorem X16_block_still_life (this : GameOfLife) (a b : Z) :
  wf this ->
  birthRule this = [3] -> survivalRule this = [2; 3] ->
  in_bounds this a b -> in_bounds this (a + 1) (b + 1) ->
  (forall row col,
      alive this row col = live_at (shift a b block_cells) row col) ->
  nextGeneration this = Ok (tt, this).
Proof.
  intros Hwf Hb Hs Hin1 Hin2 Hlive.
  destruct (nextGeneration_evolves_shift this (-1) 2 a b block_cells
              block_cells Hwf Hlive)
    as (this' & Hrun & Hwf' & Hcfg & Hlive').
  - by rewrite Hb.
  - reflexivity.
  - reflexivity.
  - apply (within_in_bounds this 0 1); [reflexivity | |];
      by rewrite ?Z.add_0_l, ?(Z.add_comm 1).
  - by rewrite Hb, Hs.
  - rewrite Hrun. do 2 f_equal.
    apply state_ext; [done | done | done |].
    intros row col _. by rewrite Hlive', Hlive.
Qed.

Lemma X16_block_still_life_witness :
  nextGeneration
    (mkGameOfLife [ [false; false; false; false];
                    [false; true; true; false];
                    [false; true; true; false] ] 3 4 [3] [2; 3])
  = Ok (tt, mkGameOfLife [ [false; false; false; false];
                           [false; true; true; false];
                           [false; true; true; false] ] 3 4 [3] [2; 3]).
Proof.
  apply (X16_block_still_life _ 1 1).
  - split; [reflexivity | repeat constructor].
  - reflexivity.
  - reflexivity.
  - vm_compute. intuition discriminate.
  - vm_compute. intuition discriminate.
  - apply shows_spec. reflexivity.
Defined.

(** X17. Under the default rules a blinker has period 2 wherever it lies
    with its neighbourhood in the grid: one generation turns the horizontal
    row of three cells centred at [(a, b)] into the vertical one, and the
    next generation gives back the object the first one started from. *)
Theorem X17_blinker_period_two (this : GameOfLife) (a b : Z) :
  wf this ->
  birthRule this = [3] -> survivalRule this = [2; 3] ->
  in_bounds this (a - 1) (b - 1) -> in_bounds this (a + 1) (b + 1) ->
  (forall row col,
      alive this row col = live_at (shift a b blinker_h) row col) ->
  exists this',
    nextGeneration this = Ok (tt, this') /\
    (forall row col,
        alive this' row col = live_at (shift a b blinker_v) row col) /\
    nextGeneration this' = Ok (tt, this).
Proof.
  intros Hwf Hb Hs Hin1 Hin2 Hlive.
  assert (Hroom : forall cells,
             within (-1) 1 cells = true ->
             forall row col, live_at cells row col = true ->
                             in_bounds this (row + a) (col + b)).
  { intros cells Hw. apply (within_in_bounds this (-1) 1); [done | |].
    - by replace (-1 + a) with (a - 1) by lia;
         replace (-1 + b) with (b - 1) by lia.
    - by rewrite !(Z.add_comm 1). }
  destruct (nextGeneration_evolves_shift this (-2) 2 a b blinker_h blinker_v
              Hwf Hlive)
    as (this1 & Hrun1 & Hwf1 & Hcfg1 & Hlive1);
    [by rewrite Hb | reflexivity | reflexivity | by apply Hroom
    | by rewrite Hb, Hs |].
  destruct Hcfg1 as (Hr1 & Hc1 & Hb1 & Hs1).
  destruct (nextGeneration_evolves_shift this1 (-2) 2 a b blinker_v blinker_h
              Hwf1 Hlive1)
    as (this2 & Hrun2 & Hwf2 & Hcfg2 & Hlive2).
  - by rewrite Hb1, Hb.
  - reflexivity.
  - reflexivity.
  - intros row col Hl. unfold in_bounds. rewrite Hr1, Hc1.
    by apply (Hroom blinker_h).
  - by rewrite Hb1, Hs1, Hb, Hs.
  - exists this1. split; [done|]. split; [done|].
    rewrite Hrun2. do 2 f_equal.
    apply state_ext; [done | done | |].
    + destruct Hcfg2 as (?&?&?&?). unfold same_config.
      repeat split; congruence.
    + intros row col _. by rewrite Hlive2, Hlive.
Qed.

Lemma X17_blinker_period_two_witness :
  (nextGeneration ;;; nextGeneration)
    (mkGameOfLife [ [false; false; false];
                    [true; true; true];
                    [false; false; false] ] 3 3 [3] [2; 3])
  = Ok (tt, mkGameOfLife [ [false; false; false];
                           [true; true; true];
                           [false; false; false] ] 3 3 [3] [2; 3]).
Proof.
  destruct (X17_blinker_period_two _ 1 1 blinker_wf eq_refl eq_refl)
    as (this' & Hrun1 & _ & Hrun2).
  - vm_compute. intuition discriminate.
  - vm_compute. intuition discriminate.
  - apply shows_spec. reflexivity.
  - by rewrite (bind_ok _ _ _ _ _ Hrun1).
Defined.

Lemma covers_shift (pattern : list (list Z)) (sr sc d e row col : Z) :
  covers pattern (sr + d) (sc + e) row col
  = covers pattern sr sc (row - d) (col - e).
Proof.
  unfold covers, covers_cells.
  destruct (Z.ltb_spec row (sr + d)), (Z.ltb_spec (row - d) sr);
    try lia; try reflexivity.
  replace (row - d - sr) with (row - (sr + d)) by lia.
  destruct (pattern !! Z.to_nat (row - (sr + d))) as [cells|]; [|reflexivity].
  destruct (Z.ltb_spec col (sc + e)), (Z.ltb_spec (col - e) sc);
    try lia; try reflexivity.
  by replace (col - e - sc) with (col - (sc + e)) by lia.
Qed.

Lemma bind_cong {A B} (c1 c2 : M A) (k : A -> M B) this :
  c1 this = c2 this -> bind c1 k this = bind c2 k this.
Proof. intros H. unfold bind. by rewrite H. Qed.

Lemma bind_ret_tt (c : M unit) this : (c ;;; ret tt) this = c this.
Proof.
  unfold bind. destruct (c this) as [[[] this']|f]; reflexivity.
Qed.

Lemma times_add (n m : nat) (c : M unit) this :
  times (n + m) c this = (times n c ;;; times m c) this.
Proof.
  revert this. induction n as [|n IH]; intros this; [reflexivity|].
  simpl. rewrite bind_assoc.
  destruct (c this) as [[[] this']|f] eqn:E.
  - rewrite !(bind_ok _ _ _ _ _ E). apply IH.
  - unfold bind. by rewrite E.
Qed.

(** A glider stamped on a new object, with room for its three rows and
    columns. *)
Lemma glider_stamped (nrows ncols sr sc : Z) :
  0 <= sr -> 0 <= sc -> sr + 3 <= nrows -> sc + 3 <= ncols ->
  exists this0,
    addGlider sr sc (constructor nrows ncols) = Ok (tt, this0) /\
    wf this0 /\ same_config (constructor nrows ncols) this0 /\
    forall row col,
      alive this0 row col
      = live_at (shift (sr - 1) (sc - 1) glider_gen0) row col.
Proof.
  intros Hsr Hsc Hrows Hcols.
  pose proof (constructor_wf nrows ncols) as Hwf.
  destruct (stamp_rows_wf sr sc glider 0 _ Hwf)
    as (this0 & Hrun0 & Hwf0 & Hcfg0 & Hcells0).
  exists this0. split; [done|]. split; [done|]. split; [done|].
  intros row col.
  rewrite Hcells0, constructor_dead, Z.add_0_r, live_at_shift.
  replace sr with (1 + (sr - 1)) at 1 by lia.
  replace sc with (1 + (sc - 1)) at 1 by lia.
  rewrite covers_shift, covers_glider.
  change (live_at _ (row - (sr - 1)) (col - (sc - 1)))
    with (live_at glider_gen0 (row - (sr - 1)) (col - (sc - 1))).
  destruct (live_at glider_gen0 (row - (sr - 1)) (col - (sc - 1))) eqn:E;
    [|by rewrite andb_false_r].
  apply (live_at_within 1 3) in E; [|reflexivity].
  assert (Hin : in_bounds (constructor nrows ncols) row col)
    by (unfold in_bounds; simpl; lia).
  apply in_boundsb_iff in Hin. by rewrite Hin.
Qed.

(** Four generations move a glider stamped on a new object one cell down and
    one cell right, when the grid has room for it. *)
Lemma glider_four_generations (nrows ncols sr sc : Z) :
  0 <= sr -> 0 <= sc -> sr + 4 <= nrows -> sc + 4 <= ncols ->
  (addGlider sr sc ;;; times 4 nextGeneration) (constructor nrows ncols)
  = addGlider (sr + 1) (sc + 1) (constructor nrows ncols).
Proof.
  intros Hsr Hsc Hrows Hcols.
  destruct (glider_stamped nrows ncols sr sc Hsr Hsc)
    as (this0 & Hrun0 & Hwf0 & Hcfg0 & Hlive0); [lia | lia |].
  destruct (glider_stamped nrows ncols (sr + 1) (sc + 1))
    as (thisT & HrunT & HwfT & HcfgT & HliveT); [lia | lia | lia | lia |].
  assert (Hstep : forall this cells cells',
             wf this -> same_config (constructor nrows ncols) this ->
             (forall row col,
                 alive this row col
                 = live_at (shift (sr - 1) (sc - 1) cells) row col) ->
             within 1 4 cells = true -> within 1 4 cells' = true ->
             evolves_on [3] [2; 3] 0 5 cells cells' = true ->
             exists this',
               nextGeneration this = Ok (tt, this') /\ wf this' /\
               same_config (constructor nrows ncols) this' /\
               forall row col,
                 alive this' row col
                 = live_at (shift (sr - 1) (sc - 1) cells') row col).
  { intros this cells cells' Hw Hcfg Hl Hin Hin' Hev.
    destruct (nextGeneration_evolves_shift this 0 5 (sr - 1) (sc - 1)
                cells cells' Hw Hl)
      as (this' & Hrun & Hw' & Hcfg' & Hl').
    - destruct Hcfg as (_ & _ & -> & _). reflexivity.
    - exact Hin.
    - revert Hin'. unfold within. rewrite !forallb_forall.
      intros H p Hp. specialize (H p Hp). lia.
    - intros row col Hc.
      destruct (live_at_within _ _ _ _ _ Hin' Hc).
      destruct Hcfg as (Hr & Hc' & _). unfold in_bounds.
      rewrite Hr, Hc'. simpl. lia.
    - destruct Hcfg as (_ & _ & -> & ->). exact Hev.
    - exists this'. split; [done|]. split; [done|].
      split; [by eapply same_config_trans|done]. }
  destruct (Hstep this0 glider_gen0 glider_gen1 Hwf0 Hcfg0 Hlive0)
    as (this1 & Hrun1 & Hwf1 & Hcfg1 & Hlive1); [reflexivity..|].
  destruct (Hstep this1 glider_gen1 glider_gen2 Hwf1 Hcfg1 Hlive1)
    as (this2 & Hrun2 & Hwf2 & Hcfg2 & Hlive2); [reflexivity..|].
  destruct (Hstep this2 glider_gen2 glider_gen3 Hwf2 Hcfg2 Hlive2)
    as (this3 & Hrun3 & Hwf3 & Hcfg3 & Hlive3); [reflexivity..|].
  destruct (Hstep this3 glider_gen3 glider_gen4 Hwf3 Hcfg3 Hlive3)
    as (this4 & Hrun4 & Hwf4 & Hcfg4 & Hlive4); [reflexivity..|].
  rewrite (bind_ok _ _ _ _ _ Hrun0). cbn [times].
  rewrite (bind_ok _ _ _ _ _ Hrun1), (bind_ok _ _ _ _ _ Hrun2),
    (bind_ok _ _ _ _ _ Hrun3), (bind_ok _ _ _ _ _ Hrun4).
  rewrite HrunT. unfold ret.
  apply run_eq; [done | done | |].
  - destruct HcfgT as (?&?&?&?), Hcfg4 as (?&?&?&?).
    unfold same_config. repeat split; congruence.
  - intros row col. rewrite Hlive4, HliveT, !live_at_shift.
    replace (row - (sr + 1 - 1)) with (row - (sr - 1) - 1) by lia.
    replace (col - (sc + 1 - 1)) with (col - (sc - 1) - 1) by lia.
    rewrite <- (live_at_translate glider_gen0 1 1). reflexivity.
Qed.

(** X18. A glider travels: on a new object, under the default rules, a
    glider stamped at [(sr, sc)] is, [4 * k] generations later, the glider
    stamped at [(sr + k, sc + k)], for as long as the grid has room for it;
    the two objects are equal. *)
Theorem X18_glider_travels (k : nat) (nrows ncols sr sc : Z) :
  0 <= sr -> 0 <= sc ->
  sr + Z.of_nat k + 3 <= nrows -> sc + Z.of_nat k + 3 <= ncols ->
  (addGlider sr sc ;;; times (4 * k) nextGeneration) (constructor nrows ncols)
  = addGlider (sr + Z.of_nat k) (sc + Z.of_nat k) (constructor nrows ncols).
Proof.
  revert sr sc. induction k as [|k IH]; intros sr sc Hsr Hsc Hrows Hcols.
  - change (times (4 * 0) nextGeneration) with (ret tt : M unit).
    rewrite bind_ret_tt. simpl. by rewrite !Z.add_0_r.
  - replace (4 * Datatypes.S k)%nat with (4 + 4 * k)%nat by lia.
    transitivity
      ((addGlider sr sc ;;; times 4 nextGeneration ;;;
        times (4 * k) nextGeneration) (constructor nrows ncols)).
    { destruct (addGlider sr sc (constructor nrows ncols)) as [[[] t]|f] eqn:E.
      - rewrite !(bind_ok _ _ _ _ _ E). apply times_add.
      - unfold bind. by rewrite E. }
    transitivity
      (((addGlider sr sc ;;; times 4 nextGeneration) ;;;
        times (4 * k) nextGeneration) (constructor nrows ncols)).
    { by rewrite bind_assoc. }
    rewrite (bind_cong _ (addGlider (sr + 1) (sc + 1)))
      by (apply glider_four_generations; lia).
    rewrite IH by lia. f_equal; lia.
Qed.

Lemma X18_glider_travels_witness :
  (addGlider 0 0 ;;; times 8 nextGeneration) (constructor 5 6)
  = addGlider 2 2 (constructor 5 6).
Proof.
  apply (X18_glider_travels 2 5 6 0 0); simpl; lia.
Defined.

(** ** The controller: resizing the grid *)

Lemma getGrid_wf this : getGrid this = Ok (grid this, this).
Proof.
  unfold getGrid. rewrite bind_get. unfold ret. by rewrite List.map_id.
Qed.

Lemma alive_true_in_bounds this row col :
  alive this row col = true -> in_bounds this row col.
Proof.
  intros Ha. destruct (in_bounds_dec this row col) as [Hin|Hout]; [done|].
  rewrite alive_outside in Ha by done. discriminate.
Qed.

(** X19. [resizeGrid(rows, cols)] of the controller replaces the engine by a
    new one of the dimensions given, in which a cell is alive exactly when it
    lies in both grids and was alive in the old one: the cells outside the
    new dimensions are lost and the new cells are dead.  The new engine has
    the default rules, whatever the rules of the old one were. *)
Theorem X19_resizeGrid (this : GameOfLife) (nrows ncols : Z) :
  wf this ->
  exists this',
    resizeGrid nrows ncols this = Ok (tt, this') /\
    wf this' /\
    rows this' = nrows /\ cols this' = ncols /\
    birthRule this' = [3] /\ survivalRule this' = [2; 3] /\
    forall row col,
      alive this' row col
      = alive this row col && in_boundsb this' row col.
Proof.
  intros Hwf. unfold resizeGrid.
  rewrite (bind_ok _ _ _ _ _ (getGrid_wf this)).
  rewrite (bind_ok (set_game (constructor nrows ncols)) _ this tt
             (constructor nrows ncols) eq_refl).
  set (C := constructor nrows ncols).
  assert (HwfC : wf C) by apply constructor_wf.
  assert (Hlen : length (grid this) = Z.to_nat (rows this)) by apply Hwf.
  pose (I := fun (i : Z) (_ : unit) (g : GameOfLife) =>
    wf g /\ same_config C g /\
    forall row col,
      alive g row col
      = alive this row col && in_boundsb C row col && (row <? i)).
  match goal with
  | |- exists this', for_upto ?b ?body ?s ?t = _ /\ _ =>
      destruct (for_upto_inv I b body s t)
        as ([] & g & Hrun & Hwfg & Hcfg & Hcells)
  end.
  - split; [done|]. split; [apply same_config_refl|].
    intros row col. unfold C. rewrite constructor_dead.
    destruct (Z.ltb_spec row 0) as [Hneg|Hpos]; [|by rewrite andb_false_r].
    destruct (in_boundsb (constructor nrows ncols) row col) eqn:E;
      [|by rewrite andb_false_r].
    apply in_boundsb_iff in E. destruct E. lia.
  - intros i [] g Hi (Hwfg & Hcfg & Hcells).
    destruct (grid this !! Z.to_nat i) as [oldRow|] eqn:Er.
    2:{ apply lookup_ge_None in Er. lia. }
    pose proof (shaped_row _ _ _ _ _ Hwf Er) as Hrowlen.
    pose (J := fun (j : Z) (_ : unit) (g : GameOfLife) =>
      wf g /\ same_config C g /\
      forall row col,
        alive g row col
        = alive this row col && in_boundsb C row col
          && ((row <? i) || ((row =? i) && (col <? j)))).
    match goal with
    | |- exists s' this', for_upto ?b ?body ?s ?t = _ /\ _ =>
        destruct (for_upto_inv J b body s t)
          as ([] & g1 & Hrun1 & Hwf1 & Hcfg1 & Hcells1)
    end.
    + split; [done|]. split; [done|].
      intros row col. rewrite Hcells.
      destruct (Z.ltb_spec col 0) as [Hneg|Hpos];
        [|by rewrite andb_false_r, orb_false_r].
      destruct (in_boundsb C row col) eqn:E;
        [|by rewrite !andb_false_r].
      apply in_boundsb_iff in E. destruct E. lia.
    + intros j [] g1 Hj (Hwf1 & Hcfg1 & Hcells1).
      assert (Hin : in_bounds this i j) by (unfold in_bounds; lia).
      assert (HinC : in_boundsb C i j = true)
        by (apply in_boundsb_iff; unfold in_bounds; simpl; lia).
      rewrite (bind_lift_ok _ _ _ _ (alive_inside _ _ _ Hwf Hin)).
      destruct (alive this i j) eqn:Eb.
      * destruct (setCell_wf g1 i j true Hwf1)
          as (g2 & Hset & Hwf2 & Hcfg2 & Hcells2).
        exists tt, g2. split; [done|]. split; [done|].
        split; [by eapply same_config_trans|].
        intros row col.
        rewrite Hcells2, Hcells1, (same_config_bounds _ _ _ _ Hcfg1).
        destruct (Z.eqb_spec row i) as [->|Hr];
          [destruct (Z.eqb_spec col j) as [->|Hc]|].
        -- rewrite HinC, Eb. simpl.
           destruct (Z.ltb_spec j (j + 1)); [|lia]. by rewrite orb_true_r.
        -- rewrite !andb_false_r. do 2 f_equal.
           destruct (Z.ltb_spec col j), (Z.ltb_spec col (j + 1)); simpl;
             try reflexivity; lia.
        -- rewrite andb_false_r. simpl. reflexivity.
      * exists tt, g1. split; [reflexivity|]. split; [done|]. split; [done|].
        intros row col. rewrite Hcells1.
        destruct (Z.eqb_spec row i) as [->|Hr]; [|reflexivity].
        destruct (Z.eqb_spec col j) as [->|Hc].
        -- by rewrite Eb.
        -- do 2 f_equal. simpl.
           destruct (Z.ltb_spec col j), (Z.ltb_spec col (j + 1)); simpl;
             try reflexivity; lia.
    + exists tt, g1. split; [done|]. split; [done|]. split; [done|].
      intros row col. rewrite Hcells1.
      destruct (alive this row col) eqn:Ea; [|reflexivity].
      destruct (in_boundsb C row col) eqn:Eb; [|reflexivity].
      apply alive_true_in_bounds in Ea. apply in_boundsb_iff in Eb.
      destruct Ea as [Har Hac], Eb as [Hbr Hbc]. simpl in Hbr, Hbc. simpl.
      destruct (Z.ltb_spec row i), (Z.eqb_spec row i),
        (Z.ltb_spec row (i + 1)),
        (Z.ltb_spec col
           (Z.max (Z.min (Z.of_nat (length oldRow)) ncols) 0));
        simpl; try reflexivity; lia.
  - exists g. split; [done|]. split; [done|].
    destruct Hcfg as (Hr & Hc & Hb & Hs).
    split; [done|]. split; [done|]. split; [done|]. split; [done|].
    intros row col. rewrite Hcells.
    assert (Hbg : in_boundsb g row col = in_boundsb C row col)
      by (unfold in_boundsb; by rewrite Hr, Hc).
    rewrite Hbg.
    destruct (alive this row col) eqn:Ea; [|reflexivity].
    destruct (in_boundsb C row col) eqn:Eb; [|reflexivity].
    apply alive_true_in_bounds in Ea. apply in_boundsb_iff in Eb.
    destruct Ea as [Har Hac], Eb as [Hbr Hbc]. simpl in Hbr, Hbc. simpl.
    destruct (Z.ltb_spec row
                (Z.max (Z.min (Z.of_nat (length (grid this))) nrows) 0));
      [reflexivity | lia].
Qed.

Lemma X19_resizeGrid_witness :
  exists this',
    resizeGrid 2 4
      (mkGameOfLife [ [false; false; false];
                      [true; true; true];
                      [false; false; false] ] 3 3 [3; 6] [2; 3])
    = Ok (tt, this') /\
    alive this' 1 2 = true /\ alive this' 1 3 = false /\
    birthRule this' = [3].
Proof.
  destruct (X19_resizeGrid
              (mkGameOfLife [ [false; false; false];
                              [true; true; true];
                              [false; false; false] ] 3 3 [3; 6] [2; 3]) 2 4)
    as (this' & Hrun & _ & Hr & Hc & Hb & _ & Hcells).
  - split; [reflexivity | repeat constructor].
  - exists this'. split; [exact Hrun|].
    rewrite !Hcells. unfold in_boundsb. rewrite Hr, Hc.
    split; [reflexivity|]. split; [reflexivity | exact Hb].
Defined.

(** ** Locality *)

(** X20. The next state of a cell is decided by the nine cells of its
    neighbourhood and by the rules alone: two objects, of any dimensions,
    whose rule sets have the same elements and which agree on the cell and
    on its eight neighbours, give the cell the same next state. *)
Theorem X20_nextGeneration_local (this1 this2 : GameOfLife) (row col : Z) :
  wf this1 -> wf this2 ->
  same_rule (birthRule this1) (birthRule this2) ->
  same_rule (survivalRule this1) (survivalRule this2) ->
  in_bounds this1 row col -> in_bounds this2 row col ->
  (forall dr dc,
      -1 <= dr <= 1 -> -1 <= dc <= 1 ->
      alive this2 (row + dr) (col + dc) = alive this1 (row + dr) (col + dc)) ->
  exists this1' this2',
    nextGeneration this1 = Ok (tt, this1') /\
    nextGeneration this2 = Ok (tt, this2') /\
    alive this2' row col = alive this1' row col.
Proof.
  intros Hwf1 Hwf2 Hb Hs Hin1 Hin2 Hsame.
  destruct (nextGeneration_wf this1 Hwf1) as (t1 & Hrun1 & _ & _ & Hnext1).
  destruct (nextGeneration_wf this2 Hwf2) as (t2 & Hrun2 & _ & _ & Hnext2).
  exists t1, t2. split; [done|]. split; [done|].
  rewrite Hnext1, Hnext2 by done.
  rewrite !moore_count_sum, !Hsame by lia.
  pose proof (Hsame 0 0 ltac:(lia) ltac:(lia)) as H0.
  rewrite !Z.add_0_r in H0. rewrite H0.
  unfold next_state. destruct (alive this1 row col); [apply eq_sym, Hs | apply eq_sym, Hb].
Qed.

Lemma X20_nextGeneration_local_witness :
  exists this1' this2',
    nextGeneration
      (mkGameOfLife [ [false; false; false];
                      [true; true; true];
                      [false; false; false] ] 3 3 [3] [2; 3])
    = Ok (tt, this1') /\
    nextGeneration
      (mkGameOfLife [ [false; false; false; true];
                      [true; true; true; false];
                      [false; false; false; false];
                      [true; true; true; true] ] 4 4 [3] [3; 2])
    = Ok (tt, this2') /\
    alive this2' 1 1 = alive this1' 1 1.
Proof.
  apply (X20_nextGeneration_local
           (mkGameOfLife [ [false; false; false];
                           [true; true; true];
                           [false; false; false] ] 3 3 [3] [2; 3])
           (mkGameOfLife [ [false; false; false; true];
                           [true; true; true; false];
                           [false; false; false; false];
                           [true; true; true; true] ] 4 4 [3] [3; 2]) 1 1).
  - exact blinker_wf.
  - split; [reflexivity | repeat constructor].
  - intros n. reflexivity.
  - intros n. simpl. rewrite !orb_false_r. apply orb_comm.
  - vm_compute. intuition discriminate.
  - vm_compute. intuition discriminate.
  - intros dr dc Hdr Hdc.
    assert (Edr : dr = -1 \/ dr = 0 \/ dr = 1) by lia.
    assert (Edc : dc = -1 \/ dc = 0 \/ dc = 1) by lia.
    destruct Edr as [->|[->| ->]], Edc as [->|[->| ->]]; reflexivity.
Defined.
